(** * Voxel synthesis and voxel transforms of 3d_conv

    A shallow embedding of
      - [datasets/geometric_3d_dataset.py] (class [Geometric3DDataset]) and
      - [layers/layer_utils.py] ([downscale_3d], [rotate_3d],
        [bounding_box_re_center_3d]).

    The sources are Python 2 ([xrange]): [/] between two integers is floor
    division.  Numpy arrays are flat row-major buffers with a shape; Python
    exceptions are values of [exn]; the numpy random generator is an oracle
    read through a cursor.  Floats are a class of operations with two
    instances: IEEE doubles, which the sources compute with, and exact
    rationals. *)

From Stdlib Require Import Arith ZArith QArith Qround Qabs Lia List Bool String.
From Stdlib Require PrimFloat SpecFloat Uint63 FloatOps.
From stdpp Require Import base list.
Import ListNotations.

Local Open Scope Z_scope.

(** ** Exceptions and the error monad *)

Inductive exn : Type :=
| NotImplementedError
| IndexError
| NameError
| TypeError
| ValueError
| UnboundLocalError
| ZeroDivisionError.

Inductive result (A : Type) : Type :=
| Ok (a : A)
| Err (e : exn).
Arguments Ok {A} a.
Arguments Err {A} e.

Definition rbind {A B : Type} (m : result A) (k : A -> result B) : result B :=
  match m with
  | Ok a => k a
  | Err e => Err e
  end.

Notation "x <- m ;; k" := (rbind m (fun x => k))
  (at level 100, m at next level, right associativity).

Definition is_ok {A : Type} (m : result A) : bool :=
  match m with Ok _ => true | Err _ => false end.

(** A [for] loop over a list of values, threading the loop state and
    stopping at the first exception. *)
Fixpoint for_each {A S : Type} (l : list A) (body : A -> S -> result S)
    (s : S) : result S :=
  match l with
  | [] => Ok s
  | a :: l' => s' <- body a s ;; for_each l' body s'
  end.

(** [xrange(lo, hi)]: the integers [lo], [lo+1], ..., [hi-1]. *)
Definition xrange (lo hi : Z) : list Z :=
  map (fun k => lo + Z.of_nat k) (seq 0 (Z.to_nat (hi - lo))).

(** ** Numpy arrays

    Every array of the sources holds zeros and ones only, whatever its
    dtype; a cell is a boolean. *)

Module Np.

Local Open Scope nat_scope.

(** Number of elements of an array of shape [sh]. *)
Fixpoint size (sh : list nat) : nat :=
  match sh with
  | [] => 1
  | s :: sh' => s * size sh'
  end.

(** Row-major (C order) offset of a multi-index. *)
Fixpoint ravel (sh idx : list nat) : nat :=
  match sh, idx with
  | _ :: sh', i :: idx' => i * size sh' + ravel sh' idx'
  | _, _ => 0
  end.

(** The multi-index of an offset. *)
Fixpoint unravel (sh : list nat) (k : nat) : list nat :=
  match sh with
  | [] => []
  | _ :: sh' => (k / size sh') :: unravel sh' (k mod size sh')
  end.

(** [idx] addresses an element of an array of shape [sh]. *)
Fixpoint in_range (sh idx : list nat) : bool :=
  match sh, idx with
  | [], [] => true
  | s :: sh', i :: idx' => (i <? s) && in_range sh' idx'
  | _, _ => false
  end.

Record ndarray : Type := mk { shape : list nat; data : list bool }.

(** The buffer has one cell per element. *)
Definition wf (a : ndarray) : Prop := length (data a) = size (shape a).

(** [numpy.zeros(shape, dtype=bool)] for a shape of non-negative lengths;
    a negative length raises [ValueError]. *)
Definition zeros_nat (sh : list nat) : ndarray :=
  mk sh (replicate (size sh) false).

Definition zeros (sh : list Z) : result ndarray :=
  if forallb (fun s => (0 <=? s)%Z) sh
  then Ok (zeros_nat (map Z.to_nat sh))
  else Err ValueError.

(** One component of an index expression: a negative index counts from the
    end; anything outside [-n, n) raises [IndexError]. *)
Definition norm_index (n : nat) (i : Z) : result nat :=
  if ((0 <=? i) && (i <? Z.of_nat n))%Z then Ok (Z.to_nat i)
  else if ((- Z.of_nat n <=? i) && (i <? 0))%Z
       then Ok (Z.to_nat (i + Z.of_nat n))
       else Err IndexError.

Fixpoint norm_indices (sh : list nat) (idx : list Z) : result (list nat) :=
  match sh, idx with
  | [], [] => Ok []
  | s :: sh', i :: idx' =>
      j <- norm_index s i ;;
      js <- norm_indices sh' idx' ;;
      Ok (j :: js)
  | _, _ => Err IndexError
  end.

(** [a[i0, ..., ik]] read with natural, already normalised indices. *)
Definition at_nat (a : ndarray) (idx : list nat) : bool :=
  default false (data a !! ravel (shape a) idx).

(** [a[i0, ..., ik]]. *)
Definition get (a : ndarray) (idx : list Z) : result bool :=
  js <- norm_indices (shape a) idx ;;
  Ok (at_nat a js).

(** [a[i0, ..., ik] = v]. *)
Definition set (a : ndarray) (idx : list Z) (v : bool) : result ndarray :=
  js <- norm_indices (shape a) idx ;;
  Ok (mk (shape a) (<[ravel (shape a) js := v]> (data a))).

(** The array of shape [sh] whose element at [idx] is [f idx]. *)
Definition tabulate (sh : list nat) (f : list nat -> bool) : ndarray :=
  mk sh ((fun k => f (unravel sh k)) <$> seq 0 (size sh)).

(** Bounds of the slice [lo:hi] on an axis of length [n] ([None] is an
    omitted bound): negative bounds count from the end, then both are
    clamped to [0, n]. *)
Definition slice_bound (n : nat) (b : Z) : nat :=
  if (b <? 0)%Z then Z.to_nat (Z.max 0 (b + Z.of_nat n))
  else Z.to_nat (Z.min b (Z.of_nat n)).

Definition slice_start (n : nat) (lo : option Z) : nat :=
  match lo with None => 0 | Some b => slice_bound n b end.

Definition slice_stop (n : nat) (hi : option Z) : nat :=
  match hi with None => n | Some b => slice_bound n b end.

(** The positions selected by [lo:hi] on an axis of length [n]. *)
Definition slice_range (n : nat) (lo hi : option Z) : list nat :=
  seq (slice_start n lo) (slice_stop n hi - slice_start n lo).


Definition set_nat (a : ndarray) (idx : list nat) (v : bool) : ndarray :=
  mk (shape a) (<[ravel (shape a) idx := v]> (data a)).

(** [a[i, zlo:zhi, c, xlo:xhi, ylo:yhi] = v] on a 5-d array: two integer
    indices and three slices. *)
Definition set_slice5 (a : ndarray) (i zlo zhi c xlo xhi ylo yhi : Z)
    (v : bool) : result ndarray :=
  match shape a with
  | [nb; nz; nc; nx; ny] =>
      i' <- norm_index nb i ;;
      c' <- norm_index nc c ;;
      Ok (fold_left (fun acc z =>
            fold_left (fun acc x =>
              fold_left (fun acc y => set_nat acc [i'; z; c'; x; y] v)
                (slice_range ny (Some ylo) (Some yhi)) acc)
              (slice_range nx (Some xlo) (Some xhi)) acc)
            (slice_range nz (Some zlo) (Some zhi)) a)
  | _ => Err IndexError
  end.

(** [a[..., lo:hi, ...]] with the slice on axis [k] and [:] elsewhere. *)
Definition slice_axis (k : nat) (lo hi : option Z) (a : ndarray)
    : result ndarray :=
  match shape a !! k with
  | Some n =>
      let s := slice_start n lo in
      Ok (tabulate (<[k := slice_stop n hi - s]> (shape a))
            (fun idx => at_nat a (alter (fun j => j + s) k idx)))
  | None => Err IndexError
  end.


(** [a[n, :, c, :, :]] of a 5-d array: the 3-d volume of one sample. *)
Definition volume (a : ndarray) (n c : Z) : result ndarray :=
  match shape a with
  | [nb; nz; nc; nx; ny] =>
      n' <- norm_index nb n ;;
      c' <- norm_index nc c ;;
      Ok (tabulate [nz; nx; ny]
            (fun idx =>
               match idx with
               | [z; x; y] => at_nat a [n'; z; c'; x; y]
               | _ => false
               end))
  | _ => Err IndexError
  end.

(** [a[n, :, c, :, :] = t] for a 3-d array [t] of the matching shape. *)
Definition set_volume (a : ndarray) (n c : Z) (t : ndarray)
    : result ndarray :=
  match shape a with
  | [nb; nz; nc; nx; ny] =>
      n' <- norm_index nb n ;;
      c' <- norm_index nc c ;;
      if bool_decide (shape t = [nz; nx; ny])
      then Ok (tabulate (shape a)
                 (fun idx =>
                    match idx with
                    | [i; z; ch; x; y] =>
                        if (i =? n') && (ch =? c') then at_nat t [z; x; y]
                        else at_nat a idx
                    | _ => false
                    end))
      else Err ValueError
  | _ => Err IndexError
  end.

(** [numpy.nonzero(a)]: a tuple with one index array per axis, listing the
    non-zero elements in row-major order. *)
Definition nonzero (a : ndarray) : list (list nat) :=
  let hits := filter (fun k => default false (data a !! k) = true)
                (seq 0 (size (shape a))) in
  map (fun d => map (fun k => default 0 (unravel (shape a) k !! d)) hits)
      (seq 0 (length (shape a))).

(** [numpy.roll(a, shift, axis=k)]: cyclic shift along one axis. *)
Definition roll (a : ndarray) (shift : Z) (k : nat) : result ndarray :=
  match shape a !! k with
  | Some n =>
      Ok (tabulate (shape a)
            (fun idx =>
               at_nat a (alter (fun j =>
                 Z.to_nat ((Z.of_nat j - shift) mod Z.of_nat n)) k idx)))
  | None => Err ValueError
  end.

(** [NPY_MAX_INTP], the largest array size, on a 64-bit platform. *)
Definition intp_max : Z := (2 ^ 63 - 1)%Z.

(** The product of the lengths that are not zero: the number numpy checks
    against [NPY_MAX_INTP] (times the item size, one byte for a boolean)
    when it makes an array object of that shape, also for an array
    without elements. *)
Fixpoint nonzero_volume (dims : list Z) : Z :=
  match dims with
  | [] => 1%Z
  | d :: ds =>
      if (d =? 0)%Z then nonzero_volume ds else (d * nonzero_volume ds)%Z
  end.

Definition fits (dims : list Z) : bool :=
  (nonzero_volume dims <=? intp_max)%Z.

(** The array [a] can be given the shape [dims]: the lengths fit, or they
    have the non-zero volume that the shape of [a], an array that exists,
    already has. *)
Definition within_limit (a : ndarray) (dims : list Z) : bool :=
  (nonzero_volume dims
   <=? Z.max intp_max (nonzero_volume (map Z.of_nat (shape a))))%Z.

(** [a.reshape(dims)]: the buffer is kept; the total size is checked, and
    the new lengths against the largest array size; one dimension may be
    [-1] and is then inferred. *)
Definition reshape (a : ndarray) (dims : list Z) : result ndarray :=
  if existsb (fun d => (d <? -1)%Z) dims then Err ValueError
  else
    let unknown := length (filter (fun d => d = (-1)%Z) dims) in
    let known := size (map Z.to_nat (filter (fun d => d <> (-1)%Z) dims)) in
    let total := length (data a) in
    if unknown =? 0 then
      if known =? total then
        if within_limit a dims then Ok (mk (map Z.to_nat dims) (data a))
        else Err ValueError
      else Err ValueError
    else if unknown =? 1 then
      if (known =? 0) || negb (total mod known =? 0) then Err ValueError
      else
        let dims' := map (fun d => if (d =? -1)%Z then total / known
                                   else Z.to_nat d) dims in
        if within_limit a (map Z.of_nat dims') then Ok (mk dims' (data a))
        else Err ValueError
    else Err ValueError.

(** [a.max(axis=(2, 5, 7))] of an 8-d boolean array: the maximum of
    booleans is their disjunction; a reduction over an empty axis has no
    identity and raises [ValueError]. *)
Definition amax_2_5_7 (a : ndarray) : result ndarray :=
  match shape a with
  | [n0; n1; n2; n3; n4; n5; n6; n7] =>
      if (n2 =? 0) || (n5 =? 0) || (n7 =? 0) then Err ValueError
      else Ok (tabulate [n0; n1; n3; n4; n6]
                 (fun idx =>
                    match idx with
                    | [i0; i1; i3; i4; i6] =>
                        existsb (fun i2 =>
                          existsb (fun i5 =>
                            existsb (fun i7 =>
                              at_nat a [i0; i1; i2; i3; i4; i5; i6; i7])
                              (seq 0 n7))
                            (seq 0 n5))
                          (seq 0 n2)
                    | _ => false
                    end))
  | _ => Err ValueError
  end.

End Np.

(** ** Python values used by the sources *)

(** The key of a subscription [t[key]]. *)
Inductive pykey : Type :=
| KInt (i : Z)
| KList (l : list Z).

(** [t[key]] on a tuple: only integer keys are accepted. *)
Definition tuple_getitem {A : Type} (t : list A) (key : pykey) : result A :=
  match key with
  | KInt i =>
      j <- Np.norm_index (length t) i ;;
      match t !! j with
      | Some a => Ok a
      | None => Err IndexError
      end
  | KList _ => Err TypeError
  end.

(** Python 2 [a / b] and [a // b] on integers. *)
Definition py_div (a b : Z) : result Z :=
  if b =? 0 then Err ZeroDivisionError else Ok (a / b).

(** The builtins [min] and [max] on a sequence of indices. *)
Definition py_min (l : list nat) : result Z :=
  match l with
  | [] => Err ValueError
  | a :: l' => Ok (Z.of_nat (fold_left Nat.min l' a))
  end.

Definition py_max (l : list nat) : result Z :=
  match l with
  | [] => Err ValueError
  | a :: l' => Ok (Z.of_nat (fold_left Nat.max l' a))
  end.

(** Resolution of a global name in a module whose global names are
    [globals]. *)
Definition lookup_global (globals : list string) (name : string)
    : result unit :=
  if existsb (String.eqb name) globals then Ok tt else Err NameError.

(** ** Python numbers *)

(** The operations on floats (IEEE doubles in the sources) that the
    sources use.  What is proved for every implementation of them holds
    for the doubles below in particular.  [f_floor] and [f_ceil] are
    [int(math.floor(x))] and [int(math.ceil(x))]. *)
Class FloatOps (F : Type) : Type := {
  f_of_int : Z -> F;
  f_add : F -> F -> F;
  f_sub : F -> F -> F;
  f_mul : F -> F -> F;
  f_sq : F -> F;
  f_abs : F -> F;
  f_le : F -> F -> bool;
  f_floor : F -> Z;
  f_ceil : F -> Z
}.

(** Exact rational arithmetic: no operation rounds.  It is what the
    formulas of the sources mean when read over the real numbers, and it
    agrees with the doubles of the sources only where every intermediate
    value is a double, as for the draw 0 (radius 3). *)
#[global] Instance Q_FloatOps : FloatOps Q := {
  f_of_int := inject_Z;
  f_add := Qplus;
  f_sub := Qminus;
  f_mul := Qmult;
  f_sq := fun x => Qmult x x;
  f_abs := Qabs;
  f_le := Qle_bool;
  f_floor := Qfloor;
  f_ceil := Qceiling
}.

(** ** IEEE doubles

    Python's [float] and numpy's [float64] are binary64 numbers, as the
    primitive floats are; each operation rounds to the nearest double,
    ties to even. *)

(** [float(z)], for an integer below 2^63 in absolute value. *)
Definition float_of_Z (z : Z) : PrimFloat.float :=
  if z <? 0 then PrimFloat.opp (PrimFloat.of_uint63 (Uint63.of_Z (- z)))
  else PrimFloat.of_uint63 (Uint63.of_Z z).

(** The largest integer below the finite double [(-1)^s * m * 2^e]. *)
Definition sf_floor (x : SpecFloat.spec_float) : Z :=
  match x with
  | SpecFloat.S754_finite s m e =>
      let v := if s then Z.neg m else Z.pos m in
      if 0 <=? e then v * 2 ^ e else v / 2 ^ (- e)
  | _ => 0
  end.

(** [int(math.floor(x))] and [int(math.ceil(x))] of a finite double. *)
Definition float_floor (x : PrimFloat.float) : Z :=
  sf_floor (FloatOps.Prim2SF x).
Definition float_ceil (x : PrimFloat.float) : Z :=
  - sf_floor (FloatOps.Prim2SF (PrimFloat.opp x)).

(** The rational that a finite double is. *)
Definition float_value (x : PrimFloat.float) : Q :=
  match FloatOps.Prim2SF x with
  | SpecFloat.S754_finite s m e =>
      let v := if s then Z.neg m else Z.pos m in
      if 0 <=? e then inject_Z (v * 2 ^ e)
      else Qmake v (Z.to_pos (2 ^ (- e)))
  | _ => 0%Q
  end.

#[global] Instance Float64_FloatOps : FloatOps PrimFloat.float := {
  f_of_int := float_of_Z;
  f_add := PrimFloat.add;
  f_sub := PrimFloat.sub;
  f_mul := PrimFloat.mul;
  f_sq := fun x => PrimFloat.mul x x;
  f_abs := PrimFloat.abs;
  f_le := PrimFloat.leb;
  f_floor := float_floor;
  f_ceil := float_ceil
}.

Section Numbers.
Context {F : Type} `{FloatOps F}.

(** A Python number is an [int] or a [float]; an operation on two [int]s is
    exact, any other one converts to [float] first. *)
Inductive num : Type :=
| PInt (n : Z)
| PFloat (x : F).

Definition to_float (a : num) : F :=
  match a with
  | PInt n => f_of_int n
  | PFloat x => x
  end.

Definition num_add (a b : num) : num :=
  match a, b with
  | PInt m, PInt n => PInt (m + n)
  | _, _ => PFloat (f_add (to_float a) (to_float b))
  end.

Definition num_sub (a b : num) : num :=
  match a, b with
  | PInt m, PInt n => PInt (m - n)
  | _, _ => PFloat (f_sub (to_float a) (to_float b))
  end.

Definition num_mul (a b : num) : num :=
  match a, b with
  | PInt m, PInt n => PInt (m * n)
  | _, _ => PFloat (f_mul (to_float a) (to_float b))
  end.

(** [a ** 2] *)
Definition num_sq (a : num) : num :=
  match a with
  | PInt n => PInt (n * n)
  | PFloat x => PFloat (f_sq x)
  end.

Definition num_abs (a : num) : num :=
  match a with
  | PInt n => PInt (Z.abs n)
  | PFloat x => PFloat (f_abs x)
  end.

(** [a <= b] *)
Definition num_le (a b : num) : bool :=
  match a, b with
  | PInt m, PInt n => m <=? n
  | _, _ => f_le (to_float a) (to_float b)
  end.

(** [int(math.ceil(a))] and [int(math.floor(a))]: [math.ceil] and
    [math.floor] convert their argument to [float]. *)
Definition num_ceil (a : num) : Z := f_ceil (to_float a).
Definition num_floor (a : num) : Z := f_floor (to_float a).

(** ** The numpy random generator

    [rand_at k] is the float in [0, 1) and [randint_at k] the raw integer
    that the [k]-th draw returns; the generator state is the number of
    draws made so far. *)
Record rng : Type := { rand_at : nat -> F; randint_at : nat -> Z }.

Variable g : rng.

(** [np.random.rand()] *)
Definition np_random_rand (c : nat) : F * nat := (rand_at g c, S c).

(** [np.random.rand(n)] *)
Definition np_random_rand_n (n c : nat) : list F * nat :=
  (map (rand_at g) (seq c n), (c + n)%nat).

(** [np.random.randint(lo, hi, n)] *)
Definition np_random_randint (lo hi n : Z) (c : nat)
    : result (list Z * nat) :=
  if (hi <=? lo) || (n <? 0) then Err ValueError
  else Ok (map (fun k => lo + randint_at g k mod (hi - lo))
             (seq c (Z.to_nat n)),
           (c + Z.to_nat n)%nat).

(** ** datasets/geometric_3d_dataset.py *)

(** Geometry types *)
Definition SPHERE_TYPE : Z := 0.
Definition DIAMOND_TYPE : Z := 1.
Definition CUBE_TYPE : Z := 2.

(** Task types *)
Definition CLASSIFICATION_TASK : Z := 0.
Definition KINECT_COMPLETION_TASK : Z := 1.
Definition HALF_COMPLETION_TASK : Z := 2.

(** The attributes of a [Geometric3DDataset] object. *)
Record dataset : Type := {
  num_labels : Z;
  batch_size : Z;
  patch_size : Z;
  task : Z;
  centered : bool
}.

(** [Geometric3DDataset.__init__] *)
Definition init (batch_size patch_size task : Z) (centered : bool)
    : result dataset :=
  if patch_size <=? 7 then Err NotImplementedError
  else Ok {| num_labels := 3;
             batch_size := batch_size;
             patch_size := patch_size;
             task := task;
             centered := centered |}.

(** The names bound at module level: [import numpy as np], [import math]
    and the class statement. *)
Definition module_globals : list string :=
  ["np"; "math"; "Geometric3DDataset"]%string.

(** The centre [(x0, y0, z0)] chosen at the start of
    [__generate_solid_figures]. *)
Definition draw_center (self : dataset) (c : nat) : (num * num * num) * nat :=
  if centered self then
    let m := PInt ((patch_size self - 1) / 2) in ((m, m, m), c)
  else if task self =? HALF_COMPLETION_TASK then
    let x0 := PInt ((patch_size self - 1) / 2) in
    let scale r := num_mul (PFloat r) (PInt (patch_size self - 1)) in
    ((x0, scale (rand_at g c), scale (rand_at g (S c))), (c + 2)%nat)
  else
    let scale r := num_mul (PFloat r) (PInt (patch_size self - 1)) in
    ((scale (rand_at g c), scale (rand_at g (S c)),
      scale (rand_at g (S (S c)))), (c + 3)%nat).

(** [radius = (self.patch_size/2 - 3) * np.random.rand() + 3] *)
Definition radius_of (self : dataset) (r : F) : num :=
  num_add (num_mul (PInt (patch_size self / 2 - 3)) (PFloat r)) (PInt 3).

(** The bounding box values on one axis: [int(max(math.ceil(x0-radius), 0))]
    and [int(min(math.floor(x0+radius), self.patch_size-1))]. *)
Definition box_min (x0 radius : num) : Z :=
  Z.max (num_ceil (num_sub x0 radius)) 0.
Definition box_max (self : dataset) (x0 radius : num) : Z :=
  Z.min (num_floor (num_add x0 radius)) (patch_size self - 1).

(** [(x-x0)**2 + (y-y0)**2 + (z-z0)**2 <= radius_squared] *)
Definition in_sphere (x0 y0 z0 radius : num) (x y z : Z) : bool :=
  num_le (num_add (num_add (num_sq (num_sub (PInt x) x0))
                           (num_sq (num_sub (PInt y) y0)))
                  (num_sq (num_sub (PInt z) z0)))
         (num_sq radius).

(** [abs(x-x0) + abs(y-y0) + abs(z-z0) <= radius] *)
Definition in_diamond (x0 y0 z0 radius : num) (x y z : Z) : bool :=
  num_le (num_add (num_add (num_abs (num_sub (PInt x) x0))
                           (num_abs (num_sub (PInt y) y0)))
                  (num_abs (num_sub (PInt z) z0)))
         radius.

(** The three nested loops over the bounding box, shared by the sphere and
    the diamond branch, which differ in the test only. *)
Definition fill_where (test : Z -> Z -> Z -> bool) (i : Z)
    (z_min z_max x_min x_max y_min y_max : Z) (solid_figures : Np.ndarray)
    : result Np.ndarray :=
  for_each (xrange z_min (z_max + 1)) (fun z sf =>
    for_each (xrange x_min (x_max + 1)) (fun x sf =>
      for_each (xrange y_min (y_max + 1)) (fun y sf =>
        if test x y z then Np.set sf [i; z; 0; x; y] true else Ok sf)
      sf)
    sf)
  solid_figures.

(** The body of the loop over the samples of [__generate_solid_figures]. *)
Definition generate_sample (self : dataset) (x0 y0 z0 : num)
    (geometry_types : list Z) (i : Z) (st : Np.ndarray * nat)
    : result (Np.ndarray * nat) :=
  let '(solid_figures, c) := st in
  let '(r, c) := np_random_rand c in
  let radius := radius_of self r in
  let x_min := box_min x0 radius in
  let y_min := box_min y0 radius in
  let z_min := box_min z0 radius in
  let x_max := box_max self x0 radius in
  let y_max := box_max self y0 radius in
  let z_max := box_max self z0 radius in
  ty <- tuple_getitem geometry_types (KInt i) ;;
  if ty =? SPHERE_TYPE then
    sf <- fill_where (in_sphere x0 y0 z0 radius) i
            z_min z_max x_min x_max y_min y_max solid_figures ;;
    Ok (sf, c)
  else if ty =? DIAMOND_TYPE then
    sf <- fill_where (in_diamond x0 y0 z0 radius) i
            z_min z_max x_min x_max y_min y_max solid_figures ;;
    Ok (sf, c)
  else if ty =? CUBE_TYPE then
    sf <- Np.set_slice5 solid_figures i z_min (z_max + 1) 0
            x_min (x_max + 1) y_min (y_max + 1) true ;;
    Ok (sf, c)
  else Err NotImplementedError.

(** [Geometric3DDataset.__generate_solid_figures] *)
Definition generate_solid_figures (self : dataset) (geometry_types : list Z)
    (c : nat) : result (Np.ndarray * nat) :=
  let '((x0, y0, z0), c) := draw_center self c in
  solid_figures <- Np.zeros [batch_size self; patch_size self; 1;
                             patch_size self; patch_size self] ;;
  for_each (xrange 0 (batch_size self))
    (generate_sample self x0 y0 z0 geometry_types) (solid_figures, c).

(** The innermost loop of [__kinect_scan]: the first occupied [z] is marked
    and the loop is left. *)
Fixpoint scan_column (solid_figures : Np.ndarray) (i x y : Z) (zs : list Z)
    (kinect_result : Np.ndarray) : result Np.ndarray :=
  match zs with
  | [] => Ok kinect_result
  | z :: zs' =>
      v <- Np.get solid_figures [i; z; 0; x; y] ;;
      if v then Np.set kinect_result [i; z; 0; x; y] true
      else scan_column solid_figures i x y zs' kinect_result
  end.

(** [itertools.product(xs, ys)] *)
Definition product {A B : Type} (xs : list A) (ys : list B) : list (A * B) :=
  flat_map (fun x => map (fun y => (x, y)) ys) xs.

(** [Geometric3DDataset.__kinect_scan], in a module whose global names are
    [globals]: the name [itertools] is resolved each time the loop over the
    samples evaluates [itertools.product]. *)
Definition kinect_scan (globals : list string) (self : dataset)
    (solid_figures : Np.ndarray) : result Np.ndarray :=
  let kinect_result := Np.zeros_nat (Np.shape solid_figures) in
  for_each (xrange 0 (batch_size self)) (fun i res =>
    _ <- lookup_global globals "itertools" ;;
    for_each (product (xrange 0 (patch_size self))
                      (xrange 0 (patch_size self)))
      (fun xy res =>
         scan_column solid_figures i (fst xy) (snd xy)
           (xrange 0 (patch_size self)) res)
      res)
  kinect_result.

(** [Geometric3DDataset.__one_hot] *)
Definition one_hot (self : dataset) (labels : list Z) : result Np.ndarray :=
  one_hot_matrix <- Np.zeros [batch_size self; num_labels self] ;;
  for_each (combine (xrange 0 (Z.of_nat (length labels))) labels)
    (fun il m => Np.set m [fst il; snd il] true)
    one_hot_matrix.

(** [(x,) * n]: a tuple of [n] copies, empty when [n] is negative. *)
Definition tuple_repeat {A : Type} (x : A) (n : Z) : list A :=
  replicate (Z.to_nat n) x.

(** [Geometric3DDataset.next_batch].  The locals [data] and [labels] are
    bound by the branch taken; [return data, labels] reads them. *)
Definition next_batch (globals : list string) (self : dataset) (c : nat)
    : result (Np.ndarray * Np.ndarray * nat) :=
  locals <-
    (if task self =? CLASSIFICATION_TASK then
       tc <- np_random_randint 0 (num_labels self) (batch_size self) c ;;
       labels <- one_hot self (fst tc) ;;
       dc <- generate_solid_figures self (fst tc) (snd tc) ;;
       Ok (Some (fst dc), Some labels, snd dc)
     else if task self =? KINECT_COMPLETION_TASK then
       lc <- generate_solid_figures self
               (tuple_repeat SPHERE_TYPE (batch_size self)) c ;;
       data <- kinect_scan globals self (fst lc) ;;
       Ok (Some data, Some (fst lc), snd lc)
     else if task self =? HALF_COMPLETION_TASK then
       tc <- generate_solid_figures self
               (tuple_repeat SPHERE_TYPE (batch_size self)) c ;;
       data <- Np.slice_axis 3 None (Some (patch_size self / 2)) (fst tc) ;;
       labels <- Np.slice_axis 3 (Some (patch_size self / 2)) None (fst tc) ;;
       Ok (Some data, Some labels, snd tc)
     else Ok (None, None, c)) ;;
  match locals with
  | (Some data, Some labels, c') => Ok (data, labels, c')
  | _ => Err UnboundLocalError
  end.

End Numbers.

(** ** layers/layer_utils.py *)

(** [a.shape[k]] *)
Definition shape_at (a : Np.ndarray) (k : Z) : result Z :=
  tuple_getitem (map Z.of_nat (Np.shape a)) (KInt k).

(** [downscale_3d] *)
Definition downscale_3d (the_5d_input : Np.ndarray) (downscale_factor : Z)
    : result Np.ndarray :=
  s0 <- shape_at the_5d_input 0 ;;
  s1 <- shape_at the_5d_input 1 ;;
  d1 <- py_div s1 downscale_factor ;;
  s2 <- shape_at the_5d_input 2 ;;
  s3 <- shape_at the_5d_input 3 ;;
  d3 <- py_div s3 downscale_factor ;;
  s4 <- shape_at the_5d_input 4 ;;
  d4 <- py_div s4 downscale_factor ;;
  r <- Np.reshape the_5d_input
         [s0; d1; downscale_factor; s2; d3; downscale_factor;
          d4; downscale_factor] ;;
  Np.amax_2_5_7 r.

Section LayerUtils.
Context {F : Type} `{FloatOps F}.

(** The rotation matrix and the two numpy operations applied to it are
    parameters: [rotate_points m nz] stands for the rows of
    [(rotation_matrix * nonzeros).T] and [float_index x] for the use of a
    float as an array index. *)
Variable matrix : Type.
Variable rotate_points : matrix -> list nat -> result (list (F * F * F)).
Variable float_index : F -> result Z.

(** [0 <= x < n] for a float [x] and an integer [n] *)
Definition float_in_bounds (x : F) (n : Z) : bool :=
  f_le (f_of_int 0) x && negb (f_le (f_of_int n) x).

(** [rotate_3d] *)
Definition rotate_3d (the_5d_input : Np.ndarray) (rotation_matrix : matrix)
    : result Np.ndarray :=
  let rotated_output := Np.zeros_nat (Np.shape the_5d_input) in
  n0 <- shape_at the_5d_input 0 ;;
  for_each (xrange 0 n0) (fun n out =>
    v <- Np.volume the_5d_input n 0 ;;
    nonzeros <- tuple_getitem (Np.nonzero v) (KList [3; 4; 1]) ;;
    rotated_nonzeros <- rotate_points rotation_matrix nonzeros ;;
    for_each rotated_nonzeros (fun p out =>
      let '(x, y, z) := p in
      s3 <- shape_at the_5d_input 3 ;;
      s4 <- shape_at the_5d_input 4 ;;
      s1 <- shape_at the_5d_input 1 ;;
      if float_in_bounds x s3 && float_in_bounds y s4 && float_in_bounds z s1
      then
        iz <- float_index z ;;
        ix <- float_index x ;;
        iy <- float_index y ;;
        Np.set out [n; iz; 0; ix; iy] true
      else Ok out)
    out)
  rotated_output.

End LayerUtils.

(** [(min(t) + max(t)) // 2] *)
Definition mid_of (t : list nat) : result Z :=
  lo <- py_min t ;;
  hi <- py_max t ;;
  Ok ((lo + hi) / 2).

(** [bounding_box_re_center_3d] *)
Definition bounding_box_re_center_3d (the_5d_input : Np.ndarray)
    : result Np.ndarray :=
  let the_5d_output := Np.zeros_nat (Np.shape the_5d_input) in
  s1 <- shape_at the_5d_input 1 ;;
  let mid := (s1 - 1) / 2 in
  n0 <- shape_at the_5d_input 0 ;;
  for_each (xrange 0 n0) (fun n out =>
    v <- Np.volume the_5d_input n 0 ;;
    let nonzeros := Np.nonzero v in
    tz <- tuple_getitem nonzeros (KInt 1) ;;
    midZ <- mid_of tz ;;
    tx <- tuple_getitem nonzeros (KInt 3) ;;
    midX <- mid_of tx ;;
    ty <- tuple_getitem nonzeros (KInt 4) ;;
    midY <- mid_of ty ;;
    r0 <- Np.roll v (mid - midZ) 0 ;;
    r1 <- Np.roll r0 (mid - midX) 1 ;;
    temp <- Np.roll r1 (mid - midY) 2 ;;
    Np.set_volume out n 0 temp)
  the_5d_output.

(** ** Vocabulary of the statements *)

(** The generator that always draws zero. *)
Definition zero_rng : @rng Q :=
  {| rand_at := fun _ => 0%Q; randint_at := fun _ => 0 |}.

(** The multi-indices of the occupied cells of an array, in row-major
    order. *)
Definition occupied_cells (a : Np.ndarray) : list (list nat) :=
  map (Np.unravel (Np.shape a))
    (filter (fun k => default false (Np.data a !! k) = true)
       (seq 0 (Np.size (Np.shape a)))).

(** The disjunction of the block of [f] x [f] x [f] voxels of sample [b],
    channel [c], that starts at depth [z * f], row [x * f], column
    [y * f]. *)
Definition block_or (a : Np.ndarray) (f b z c x y : nat) : bool :=
  existsb (fun i =>
    existsb (fun j =>
      existsb (fun k =>
        Np.at_nat a [b; z * f + i; c; x * f + j; y * f + k]%nat)
        (seq 0 f))
      (seq 0 f))
    (seq 0 f).

(** A configuration of patch size 16 with the centre fixed at the middle
    of the grid, and one sample per batch. *)
Definition centered_16 : dataset :=
  {| num_labels := 3; batch_size := 1; patch_size := 16;
     task := CLASSIFICATION_TASK; centered := true |}.

(** The cells of sample 0 in the box [4,10] x [4,10] x [4,10], in
    row-major order. *)
Definition box_4_10 : list (list nat) :=
  flat_map (fun z =>
    flat_map (fun x =>
      map (fun y => [0; z; 0; x; y]%nat) (seq 4 7))
      (seq 4 7))
    (seq 4 7).

(** [writes sh m P]: on every array of shape [sh] the command [m] returns
    an array of the same shape whose occupied cells are those of the input
    and the cells in [P]. *)
Definition writes (sh : list nat) (m : Np.ndarray -> result Np.ndarray)
    (P : list nat -> Prop) : Prop :=
  forall sf, Np.shape sf = sh -> Np.wf sf ->
  exists sf',
    m sf = Ok sf' /\ Np.shape sf' = sh /\ Np.wf sf' /\
    forall idx, Np.in_range sh idx = true ->
      (Np.at_nat sf' idx = true <-> Np.at_nat sf idx = true \/ P idx).

Section Occupancy.
Context {F : Type} `{FloatOps F}.




Variable g : @rng F.

Definition sample_radius (self : dataset) (c : nat) (i : Z) : num :=
  radius_of self (rand_at g (snd (draw_center g self c) + Z.to_nat i)).

End Occupancy.

(** A sample of 2 x 2 x 2 voxels with one occupied voxel. *)
Definition grid_2 : Np.ndarray :=
  Np.mk [1; 2; 1; 2; 2]%nat
    [false; false; false; true; false; false; false; false].

Section Validity.
Context {F : Type} `{FloatOps F}.



End Validity.

(** The voxel at depth [z] of column (x, y) of sample [i] is occupied and
    no voxel of the column at a smaller depth is. *)
Definition first_hit (sf : Np.ndarray) (i x y z : nat) : bool :=
  Np.at_nat sf [i; z; 0; x; y]%nat &&
  forallb (fun z' => negb (Np.at_nat sf [i; z'; 0; x; y]%nat)) (seq 0 z).

(** ** More of layers/layer_utils.py *)

(** [max_pool_3d_numpy]: the reshape of [downscale_3d], reduced with
    [numpy.amax] over the same axes. *)
Definition max_pool_3d_numpy (the_5d_input : Np.ndarray)
    (downscale_factor : Z) : result Np.ndarray :=
  s0 <- shape_at the_5d_input 0 ;;
  s1 <- shape_at the_5d_input 1 ;;
  d1 <- py_div s1 downscale_factor ;;
  s2 <- shape_at the_5d_input 2 ;;
  s3 <- shape_at the_5d_input 3 ;;
  d3 <- py_div s3 downscale_factor ;;
  s4 <- shape_at the_5d_input 4 ;;
  d4 <- py_div s4 downscale_factor ;;
  r <- Np.reshape the_5d_input
         [s0; d1; downscale_factor; s2; d3; downscale_factor;
          d4; downscale_factor] ;;
  Np.amax_2_5_7 r.

(** ** datasets/model_net_dataset.py *)

(** The values given as [batch_size] and [num_batches]: [None], an [int],
    a [long] or a [bool]. *)
Inductive pyarg : Type :=
| ANone
| AInt (n : Z)
| ALong (n : Z)
| ABool (b : bool).

(** The truth value of an argument: [None], 0 and [False] are false. *)
Definition truthy (a : pyarg) : bool :=
  match a with
  | ANone => false
  | AInt n | ALong n => negb (n =? 0)
  | ABool b => b
  end.

(** The integer an argument compares as ([None] is below every number in
    Python 2). *)
Definition int_value (a : pyarg) : Z :=
  match a with
  | ANone => 0
  | AInt n | ALong n => n
  | ABool b => if b then 1 else 0
  end.

(** [a > n] and [a < n] for an integer [n] *)
Definition arg_gt (a : pyarg) (n : Z) : bool :=
  match a with
  | ANone => false
  | _ => n <? int_value a
  end.

Definition arg_lt (a : pyarg) (n : Z) : bool :=
  match a with
  | ANone => true
  | _ => int_value a <? n
  end.

(** [isinstance(a, int)]: [bool] is a subclass of [int], [long] is not. *)
Definition isinstance_int (a : pyarg) : bool :=
  match a with
  | AInt _ | ABool _ => true
  | ANone | ALong _ => false
  end.

(** The attributes of a [Model_Net_Dataset] object: the patch size and the
    (file path, category) pairs found by the constructor. *)
Record model_net_dataset : Type := {
  mn_patch_size : Z;
  examples : list (string * string)
}.

(** [Model_Net_Dataset.get_num_examples] *)
Definition get_num_examples (self : model_net_dataset) : Z :=
  Z.of_nat (length (examples self)).

(** [_validate_batch_size] of [Model_Net_Iterator.__init__] *)
Definition validate_batch_size (batch_size : pyarg)
    (dataset : model_net_dataset) : result unit :=
  if negb (truthy batch_size) then Err ValueError
  else
    let num_examples := get_num_examples dataset in
    if arg_gt batch_size num_examples then Err ValueError
    else if arg_lt batch_size 0 then Err ValueError
    else if negb (isinstance_int batch_size) then Err ValueError
    else Ok tt.

(** [_validate_num_batches] of [Model_Net_Iterator.__init__] *)
Definition validate_num_batches (num_batches : pyarg) : result unit :=
  if negb (truthy num_batches) then Err ValueError
  else if arg_lt num_batches 0 then Err ValueError
  else if negb (isinstance_int num_batches) then Err ValueError
  else Ok tt.

Section ModelNetIterator.

(** The subset iterators of pylearn2 are parameters:
    [make_subset_iterator mode n b k] stands for
    [resolve_iterator_class(mode)(n, b, k)]. *)
Variable subset_iterator : Type.
Variable iteration_mode : Type.
Variable make_subset_iterator :
  iteration_mode -> Z -> pyarg -> pyarg -> result subset_iterator.
Variable post_processor : Type.

(** The attributes of a [Model_Net_Iterator] object. *)
Record model_net_iterator : Type := {
  it_dataset : model_net_dataset;
  it_subset_iterator : subset_iterator;
  it_post_processors : list post_processor
}.

(** [Model_Net_Iterator.__init__] *)
Definition iterator_init (dataset : model_net_dataset)
    (batch_size num_batches : pyarg) (mode : iteration_mode)
    (iterator_post_processors : list post_processor)
    : result model_net_iterator :=
  let dataset_size := get_num_examples dataset in
  _ <- validate_batch_size batch_size dataset ;;
  _ <- validate_num_batches num_batches ;;
  it <- make_subset_iterator mode dataset_size batch_size num_batches ;;
  Ok {| it_dataset := dataset; it_subset_iterator := it;
        it_post_processors := iterator_post_processors |}.

End ModelNetIterator.

(** ** More vocabulary *)

(** A module environment like the one of the sources, with [itertools]
    bound in addition. *)
Definition globals_with_itertools : list string :=
  "itertools"%string :: module_globals.

Section Draws.
Context {F : Type} `{FloatOps F}.
Variable g : @rng F.


End Draws.

(** A configuration with default sizes for a task. *)
Definition default_config (t : Z) (bs : Z) : dataset :=
  {| num_labels := 3; batch_size := bs; patch_size := 8; task := t;
     centered := true |}.

(** The reshape of [downscale_3d] with factor [k] is within the largest
    array size: no spatial length is zero (the reshaped array has then
    the volume of the input), or the eight lengths fit. *)
Definition blocks_fit (nb nz nc nx ny k : nat) : Prop :=
  (0 < nz /\ 0 < nx /\ 0 < ny)%nat \/
  Np.fits (map Z.of_nat [nb; nz / k; k; nc; nx / k; k; ny / k; k]%nat) = true.

(** A sample of 4 x 4 x 4 voxels: the diagonal plane [x = y] at the depths
    1 and 2. *)
Definition grid_4 : Np.ndarray :=
  Np.tabulate [1; 4; 1; 4; 4]%nat
    (fun idx =>
       match idx with
       | [_; z; _; x; y] => ((z =? 1) || (z =? 2))%nat && (x =? y)%nat
       | _ => false
       end).

(** ** The rasterizer's claim

    The formulas of the claimed occupancy, written over Python's numbers:
    an operation on two integers is exact, any other one is an operation
    of the floats [F].  With doubles for [F] they are evaluated as the
    interpreter evaluates them; with rationals they are read exactly. *)

Section Claimed.
Context {F : Type} `{FloatOps F}.





End Claimed.

(** The rational number that a Python number on doubles is. *)
Definition exact (a : @num PrimFloat.float) : @num Q :=
  match a with
  | PInt n => PInt n
  | PFloat x => PFloat (float_value x)
  end.

(** A draw of [np.random.rand()]: a double in [0, 1). *)
Definition unit_draw (u : PrimFloat.float) : bool :=
  PrimFloat.leb (float_of_Z 0) u && PrimFloat.ltb u (float_of_Z 1).

(** The generator that always draws the double [m / 2^53]. *)
Definition constant_rng (m : Z) : @rng PrimFloat.float :=
  {| rand_at := fun _ => PrimFloat.div (float_of_Z m) (float_of_Z (2 ^ 53));
     randint_at := fun _ => 0 |}.

(** The draw 0.6, that is [0x1.3333333333333p-1]. *)
Definition draw_0_6 : Z := 0x13333333333333.

(** A draw whose radius [r = 5 * u + 3] has a square that rounds up to 33:
    [0x1.190b10237b4b3p-1], about 0.5489. *)
Definition draw_33 : Z := 0x1190b10237b4b3.

(** The grid of a call of [__generate_solid_figures] that returns. *)
Definition grid_of (r : result (Np.ndarray * nat)) : Np.ndarray :=
  match r with
  | Ok (sf, _) => sf
  | Err _ => Np.mk [] []
  end.

(** A sample of 8 x 8 x 8 voxels: the column (x, y) is occupied from the
    depth [x] on when [y < 4], and is empty otherwise. *)
Definition grid_8 : Np.ndarray :=
  Np.tabulate [1; 8; 1; 8; 8]%nat
    (fun idx =>
       match idx with
       | [_; z; _; x; y] => (x <=? z)%nat && (y <? 4)%nat
       | _ => false
       end).

(** * Properties *)

(** ** Arrays *)

Module NpFacts.
Import Np.

Local Open Scope nat_scope.

Lemma ravel_lt (sh idx : list nat) :
  in_range sh idx = true -> ravel sh idx < size sh.
Proof.
  revert idx; induction sh as [|s sh IH]; intros [|i idx] Hr;
    simpl in *; try discriminate; [lia|].
  apply andb_prop in Hr as [Hi Hr]. apply Nat.ltb_lt in Hi.
  specialize (IH _ Hr). nia.
Qed.

Lemma in_range_length (sh idx : list nat) :
  in_range sh idx = true -> length idx = length sh.
Proof.
  revert idx; induction sh as [|s sh IH]; intros [|i idx] Hr;
    simpl in *; try discriminate; [reflexivity|].
  apply andb_prop in Hr as [_ Hr]. f_equal. auto.
Qed.

Lemma unravel_ravel (sh idx : list nat) :
  in_range sh idx = true -> unravel sh (ravel sh idx) = idx.
Proof.
  revert idx; induction sh as [|s sh IH]; intros [|i idx] Hr;
    simpl in *; try discriminate; [reflexivity|].
  apply andb_prop in Hr as [Hi Hr].
  pose proof (ravel_lt _ _ Hr) as Hlt.
  assert (Hdiv : (i * size sh + ravel sh idx) / size sh = i).
  { symmetry. apply (Nat.div_unique _ _ i (ravel sh idx)); lia. }
  assert (Hmod : (i * size sh + ravel sh idx) mod size sh = ravel sh idx).
  { symmetry. apply (Nat.mod_unique _ _ i (ravel sh idx)); lia. }
  rewrite Hdiv, Hmod, IH by assumption. reflexivity.
Qed.

Lemma in_range_unravel (sh : list nat) (k : nat) :
  k < size sh -> in_range sh (unravel sh k) = true.
Proof.
  revert k; induction sh as [|s sh IH]; intros k Hk; simpl in *;
    [reflexivity|].
  assert (Hpos : size sh <> 0) by (intros E; rewrite E in Hk; lia).
  apply andb_true_intro; split.
  - apply Nat.ltb_lt. apply Nat.Div0.div_lt_upper_bound; lia.
  - apply IH. apply Nat.mod_upper_bound. assumption.
Qed.

Lemma ravel_unravel (sh : list nat) (k : nat) :
  k < size sh -> ravel sh (unravel sh k) = k.
Proof.
  revert k; induction sh as [|s sh IH]; intros k Hk; simpl in *; [lia|].
  assert (Hpos : size sh <> 0) by (intros E; rewrite E in Hk; lia).
  rewrite IH by (apply Nat.mod_upper_bound; assumption).
  pose proof (Nat.div_mod k (size sh) Hpos). lia.
Qed.

Lemma ravel_inj (sh idx idx' : list nat) :
  in_range sh idx = true -> in_range sh idx' = true ->
  ravel sh idx = ravel sh idx' -> idx = idx'.
Proof.
  intros H1 H2 E.
  rewrite <- (unravel_ravel sh idx H1), <- (unravel_ravel sh idx' H2), E.
  reflexivity.
Qed.

Lemma shape_tabulate (sh : list nat) (f : list nat -> bool) :
  shape (tabulate sh f) = sh.
Proof. reflexivity. Qed.

Lemma wf_tabulate (sh : list nat) (f : list nat -> bool) :
  wf (tabulate sh f).
Proof. unfold wf; simpl. rewrite length_fmap, length_seq. reflexivity. Qed.

Lemma at_tabulate (sh : list nat) (f : list nat -> bool) (idx : list nat) :
  in_range sh idx = true -> at_nat (tabulate sh f) idx = f idx.
Proof.
  intros Hr. unfold at_nat; simpl.
  rewrite list_lookup_fmap, lookup_seq_lt by (apply ravel_lt; assumption).
  simpl. rewrite unravel_ravel by assumption. reflexivity.
Qed.

Lemma wf_zeros_nat (sh : list nat) : wf (zeros_nat sh).
Proof. unfold wf; simpl. apply length_replicate. Qed.

Lemma at_zeros_nat (sh idx : list nat) : at_nat (zeros_nat sh) idx = false.
Proof.
  unfold at_nat; simpl.
  destruct (replicate (size sh) false !! ravel sh idx) as [b|] eqn:E;
    [|reflexivity].
  apply lookup_replicate in E as [-> _]. reflexivity.
Qed.

(** Two arrays of the same shape with the same elements are equal. *)
Lemma ndarray_ext (a b : ndarray) :
  wf a -> wf b -> shape a = shape b ->
  (forall idx, in_range (shape a) idx = true -> at_nat a idx = at_nat b idx) ->
  a = b.
Proof.
  destruct a as [sa da], b as [sb db]; unfold wf; simpl.
  intros Ha Hb <- Hat. f_equal.
  apply list_eq; intros k.
  destruct (decide (k < size sa)) as [Hk|Hk].
  - specialize (Hat (unravel sa k) (in_range_unravel _ _ Hk)).
    unfold at_nat in Hat; simpl in Hat.
    rewrite ravel_unravel in Hat by assumption.
    destruct (lookup_lt_is_Some_2 da k ltac:(lia)) as [x Hx].
    destruct (lookup_lt_is_Some_2 db k ltac:(lia)) as [y Hy].
    rewrite Hx, Hy in *. simpl in Hat. congruence.
  - rewrite !lookup_ge_None_2 by lia. reflexivity.
Qed.

Lemma shape_set_nat (a : ndarray) (idx : list nat) (v : bool) :
  shape (set_nat a idx v) = shape a.
Proof. reflexivity. Qed.

Lemma wf_set_nat (a : ndarray) (idx : list nat) (v : bool) :
  wf a -> wf (set_nat a idx v).
Proof. unfold wf; simpl. rewrite length_insert. auto. Qed.

Lemma at_set_nat_eq (a : ndarray) (idx : list nat) (v : bool) :
  wf a -> in_range (shape a) idx = true -> at_nat (set_nat a idx v) idx = v.
Proof.
  intros Hw Hr. unfold at_nat; simpl.
  rewrite list_lookup_insert_eq; [reflexivity|].
  rewrite Hw. apply ravel_lt; assumption.
Qed.

Lemma at_set_nat_ne (a : ndarray) (idx idx' : list nat) (v : bool) :
  in_range (shape a) idx = true -> in_range (shape a) idx' = true ->
  idx <> idx' -> at_nat (set_nat a idx v) idx' = at_nat a idx'.
Proof.
  intros H1 H2 Hne. unfold at_nat; simpl.
  rewrite list_lookup_insert_ne; [reflexivity|].
  intros E. apply Hne. eapply ravel_inj; eassumption.
Qed.

(** Reading after a write: the written cell changes, no other does. *)
Lemma at_set_nat (a : ndarray) (idx idx' : list nat) (v : bool) :
  wf a -> in_range (shape a) idx = true -> in_range (shape a) idx' = true ->
  at_nat (set_nat a idx v) idx' =
    if bool_decide (idx = idx') then v else at_nat a idx'.
Proof.
  intros Hw H1 H2. case_bool_decide as E.
  - subst. apply at_set_nat_eq; assumption.
  - apply at_set_nat_ne; assumption.
Qed.

Lemma norm_index_nonneg (n : nat) (i : Z) :
  (0 <= i < Z.of_nat n)%Z -> norm_index n i = Ok (Z.to_nat i).
Proof.
  intros Hi. unfold norm_index.
  destruct (Z.leb_spec 0 i), (Z.ltb_spec i (Z.of_nat n)); simpl;
    try lia; reflexivity.
Qed.

End NpFacts.

(** ** Loops and ranges *)

Lemma xrange_nil (lo hi : Z) : hi <= lo -> xrange lo hi = [].
Proof.
  intros Hle. unfold xrange.
  replace (Z.to_nat (hi - lo)) with 0%nat by lia. reflexivity.
Qed.

Lemma xrange_cons (lo hi : Z) :
  lo < hi -> xrange lo hi = lo :: xrange (lo + 1) hi.
Proof.
  intros Hlt. unfold xrange.
  replace (Z.to_nat (hi - lo)) with (S (Z.to_nat (hi - (lo + 1)))) by lia.
  simpl. f_equal; [lia|].
  rewrite <- seq_shift, map_map.
  apply map_ext; intros k. lia.
Qed.

Lemma in_xrange (lo hi k : Z) : In k (xrange lo hi) <-> lo <= k < hi.
Proof.
  unfold xrange. rewrite in_map_iff. split.
  - intros (n & <- & Hn). apply in_seq in Hn. lia.
  - intros Hk. exists (Z.to_nat (k - lo)). split; [lia|].
    apply in_seq. lia.
Qed.


(** ** Construction *)

(** C7 (as amended): construction fails with [NotImplementedError] exactly
    when [patch_size <= 7]; the batch size is not examined, and for every
    other patch size the object stores the arguments, with [num_labels]
    set to 3. *)
Theorem init_spec (bs ps t : Z) (c : bool) :
  (ps <= 7 -> init bs ps t c = Err NotImplementedError) /\
  (7 < ps ->
   init bs ps t c =
     Ok {| num_labels := 3; batch_size := bs; patch_size := ps;
           task := t; centered := c |}).
Proof.
  unfold init. destruct (Z.leb_spec ps 7); split; intros; try lia;
    reflexivity.
Qed.

Lemma init_spec_witness :
  init 20 32 CLASSIFICATION_TASK true =
    Ok {| num_labels := 3; batch_size := 20; patch_size := 32;
          task := CLASSIFICATION_TASK; centered := true |}.
Proof. apply (proj2 (init_spec 20 32 CLASSIFICATION_TASK true)); lia. Defined.

(** C7 as stated fails: a non-positive batch size does not make the
    construction fail. *)
Lemma init_accepts_nonpositive_batch_size :
  ~ (forall bs ps t c, bs <= 0 -> is_ok (init bs ps t c) = false).
Proof. intros Hc. specialize (Hc 0 8 0 true ltac:(lia)). discriminate Hc. Qed.

(** ** Tasks of [next_batch] *)

Section NextBatch.
Context {F : Type} `{FloatOps F}.
Variable g : @rng F.

(** C9: for a task that is none of the three task constants no branch of
    [next_batch] binds [data] and [labels], and the [return] statement
    raises [UnboundLocalError]: the call never returns a pair. *)
Theorem next_batch_unknown_task (globals : list string) (self : dataset)
    (c : nat) :
  task self <> CLASSIFICATION_TASK ->
  task self <> KINECT_COMPLETION_TASK ->
  task self <> HALF_COMPLETION_TASK ->
  next_batch g globals self c = Err UnboundLocalError.
Proof.
  intros H0 H1 H2. unfold next_batch.
  destruct (Z.eqb_spec (task self) CLASSIFICATION_TASK); [contradiction|].
  destruct (Z.eqb_spec (task self) KINECT_COMPLETION_TASK); [contradiction|].
  destruct (Z.eqb_spec (task self) HALF_COMPLETION_TASK); [contradiction|].
  reflexivity.
Qed.

End NextBatch.

Lemma next_batch_unknown_task_witness :
  next_batch zero_rng module_globals
    {| num_labels := 3; batch_size := 20; patch_size := 32; task := 3;
       centered := true |} 0 = Err UnboundLocalError.
Proof.
  apply next_batch_unknown_task; unfold CLASSIFICATION_TASK,
    KINECT_COMPLETION_TASK, HALF_COMPLETION_TASK; simpl; lia.
Defined.

(** ** The scan in the module as it is written *)

Lemma lookup_itertools_fails :
  lookup_global module_globals "itertools" = Err NameError.
Proof. reflexivity. Qed.

(** C2, at every input with at least one sample: the module never imports
    [itertools], so the first iteration of the loop over the samples raises
    [NameError] and no grid is returned. *)
Theorem kinect_scan_name_error (self : dataset) (solid_figures : Np.ndarray) :
  1 <= batch_size self ->
  kinect_scan module_globals self solid_figures = Err NameError.
Proof.
  intros Hb. unfold kinect_scan.
  rewrite xrange_cons by lia. reflexivity.
Qed.

Lemma kinect_scan_name_error_witness :
  kinect_scan module_globals
    {| num_labels := 3; batch_size := 1; patch_size := 8;
       task := KINECT_COMPLETION_TASK; centered := true |}
    (Np.zeros_nat [1; 8; 1; 8; 8]%nat) = Err NameError.
Proof. apply kinect_scan_name_error; simpl; lia. Defined.

(** C10, at every input with at least one sample: the scan of a scan is
    never computed, since already the first scan raises [NameError]. *)
Theorem kinect_scan_twice_name_error (self : dataset)
    (solid_figures : Np.ndarray) :
  1 <= batch_size self ->
  (once <- kinect_scan module_globals self solid_figures ;;
   kinect_scan module_globals self once) = Err NameError.
Proof.
  intros Hb. unfold kinect_scan at 1.
  rewrite xrange_cons by lia. reflexivity.
Qed.

Lemma kinect_scan_twice_name_error_witness :
  (once <- kinect_scan module_globals
             {| num_labels := 3; batch_size := 1; patch_size := 8;
                task := KINECT_COMPLETION_TASK; centered := true |}
             (Np.zeros_nat [1; 8; 1; 8; 8]%nat) ;;
   kinect_scan module_globals
     {| num_labels := 3; batch_size := 1; patch_size := 8;
        task := KINECT_COMPLETION_TASK; centered := true |} once)
  = Err NameError.
Proof. apply kinect_scan_twice_name_error; simpl; lia. Defined.

(** ** Rotation and re-centring as they are written *)

Lemma shape_at_5d (a : Np.ndarray) (n0 n1 n2 n3 n4 : nat) :
  Np.shape a = [n0; n1; n2; n3; n4] ->
  shape_at a 0 = Ok (Z.of_nat n0) /\
  shape_at a 1 = Ok (Z.of_nat n1) /\
  shape_at a 2 = Ok (Z.of_nat n2) /\
  shape_at a 3 = Ok (Z.of_nat n3) /\
  shape_at a 4 = Ok (Z.of_nat n4).
Proof. intros E. unfold shape_at. rewrite E. repeat split. Qed.

Lemma length_nonzero (a : Np.ndarray) :
  length (Np.nonzero a) = length (Np.shape a).
Proof. unfold Np.nonzero. rewrite length_map, length_seq. reflexivity. Qed.

Lemma volume_shape (a v : Np.ndarray) (n c : Z) :
  Np.volume a n c = Ok v -> length (Np.shape v) = 3%nat.
Proof.
  unfold Np.volume.
  destruct (Np.shape a) as [|nb [|nz [|nc [|nx [|ny [|]]]]]];
    try discriminate.
  destruct (Np.norm_index nb n); simpl; [|discriminate].
  destruct (Np.norm_index nc c); simpl; [|discriminate].
  intros [= <-]. reflexivity.
Qed.

Section Rotate.
Context {F : Type} `{FloatOps F}.
Variable matrix : Type.
Variable rotate_points : matrix -> list nat -> result (list (F * F * F)).
Variable float_index : F -> result Z.

(** C5, at every 5-d input with at least one sample and one channel:
    [numpy.nonzero] returns a tuple, the subscription of a tuple by the
    list [[3, 4, 1]] raises [TypeError], and no output grid is returned,
    whatever the rotation matrix. *)
Theorem rotate_3d_type_error (a : Np.ndarray) (m : matrix)
    (nb nz nc nx ny : nat) :
  Np.shape a = [nb; nz; nc; nx; ny] ->
  (1 <= nb)%nat -> (1 <= nc)%nat ->
  rotate_3d matrix rotate_points float_index a m = Err TypeError.
Proof.
  intros Hs Hb Hc. unfold rotate_3d.
  destruct (shape_at_5d a _ _ _ _ _ Hs) as (-> & _). simpl.
  rewrite xrange_cons by lia. simpl.
  unfold Np.volume. rewrite Hs.
  rewrite !NpFacts.norm_index_nonneg by lia. reflexivity.
Qed.

End Rotate.

Lemma rotate_3d_type_error_witness :
  rotate_3d (F:=Q) unit (fun _ _ => Ok []) (fun x => Ok (Qfloor x))
    (Np.mk [1; 1; 1; 1; 1]%nat [true]) tt = Err TypeError.
Proof.
  apply (rotate_3d_type_error unit _ _ _ tt 1 1 1 1 1);
    [reflexivity | lia | lia].
Defined.

(** C6, at every 5-d input with at least one sample: the tuple returned by
    [numpy.nonzero] for the 3-d volume of a sample has three components,
    so [nonzeros[3]] raises [IndexError] (and an empty sample raises
    [ValueError] before that): the function never returns, and there is no
    first result to apply it to again. *)
Theorem bounding_box_re_center_3d_fails (a : Np.ndarray)
    (nb nz nc nx ny : nat) :
  Np.shape a = [nb; nz; nc; nx; ny] ->
  (1 <= nb)%nat ->
  exists e, bounding_box_re_center_3d a = Err e.
Proof.
  intros Hs Hb. unfold bounding_box_re_center_3d.
  destruct (shape_at_5d a _ _ _ _ _ Hs) as (-> & -> & _). simpl.
  rewrite xrange_cons by lia. simpl.
  destruct (Np.volume a 0 0) as [v|e] eqn:Hv; simpl; [|eauto].
  pose proof (volume_shape _ _ _ _ Hv) as Hlen.
  pose proof (length_nonzero v) as Hnz. rewrite Hlen in Hnz.
  destruct (Np.nonzero v) as [|t0 [|t1 [|t2 [|]]]]; try discriminate.
  simpl. destruct (mid_of t1) as [midZ|e]; simpl; eauto.
Qed.

Lemma bounding_box_re_center_3d_fails_witness :
  exists e, bounding_box_re_center_3d (Np.mk [1; 1; 1; 1; 1]%nat [true])
            = Err e.
Proof.
  apply (bounding_box_re_center_3d_fails _ 1 1 1 1 1); [reflexivity | lia].
Defined.

(** A grid of one occupied voxel: the exception is [IndexError]. *)
Example bounding_box_re_center_3d_one_voxel :
  bounding_box_re_center_3d (Np.mk [1; 1; 1; 1; 1]%nat [true])
  = Err IndexError.
Proof. reflexivity. Qed.

(** An empty sample: the exception is [ValueError]. *)
Example bounding_box_re_center_3d_empty_sample :
  bounding_box_re_center_3d (Np.zeros_nat [1; 2; 1; 2; 2]%nat)
  = Err ValueError.
Proof. reflexivity. Qed.

(** ** A concrete cube *)

(** C8: with patch size 16 the fixed centre is (7, 7, 7); a draw of 0 gives
    the radius 3; the cube rasterized for them occupies the cells of the
    box [4,10] x [4,10] x [4,10] and no other cell, 343 cells in all. *)
Theorem cube_7_7_7_radius_3 :
  draw_center zero_rng centered_16 0 = ((PInt 7, PInt 7, PInt 7), 0%nat) /\
  radius_of centered_16 (rand_at zero_rng 0) = PFloat (3 # 1)%Q /\
  exists sf,
    generate_solid_figures zero_rng centered_16 [CUBE_TYPE] 0
      = Ok (sf, 1%nat) /\
    Np.shape sf = [1; 16; 1; 16; 16]%nat /\
    occupied_cells sf = box_4_10 /\
    length (occupied_cells sf) = 343%nat.
Proof.
  split; [reflexivity|]. split; [reflexivity|].
  eexists. split; [vm_compute; reflexivity|].
  split; [reflexivity|]. split; vm_compute; reflexivity.
Qed.

(** ** Downscaling *)

Lemma reshape_nonneg (a : Np.ndarray) (dims : list Z) :
  Forall (fun d => 0 <= d) dims ->
  Np.reshape a dims =
    if (Np.size (map Z.to_nat dims) =? length (Np.data a))%nat
    then if Np.within_limit a dims
         then Ok (Np.mk (map Z.to_nat dims) (Np.data a))
         else Err ValueError
    else Err ValueError.
Proof.
  intros Hd. unfold Np.reshape.
  assert (H1 : existsb (fun d => d <? -1) dims = false).
  { induction Hd as [|d l Hd _ IH]; simpl; [reflexivity|].
    rewrite IH. destruct (Z.ltb_spec d (-1)); [lia|reflexivity]. }
  assert (H2 : filter (fun d => d = -1) dims = []).
  { clear H1. induction Hd as [|d l Hd _ IH]; [reflexivity|].
    rewrite filter_cons. destruct (decide (d = -1)); [lia|assumption]. }
  assert (H3 : filter (fun d => d <> -1) dims = dims).
  { clear H1 H2. induction Hd as [|d l Hd _ IH]; [reflexivity|].
    rewrite filter_cons. destruct (decide (d <> -1)); [|lia].
    f_equal. assumption. }
  rewrite H1, H2, H3. reflexivity.
Qed.

Lemma existsb_ext_in {A : Type} (f h : A -> bool) (l : list A) :
  (forall x, In x l -> f x = h x) -> existsb f l = existsb h l.
Proof.
  induction l as [|a l IH]; intros Hfh; simpl; [reflexivity|].
  rewrite (Hfh a) by (left; reflexivity).
  rewrite IH by (intros x Hx; apply Hfh; right; assumption).
  reflexivity.
Qed.

Lemma py_div_pos (a f : Z) : 0 < f -> py_div a f = Ok (a / f).
Proof.
  intros Hf. unfold py_div. destruct (Z.eqb_spec f 0); [lia|reflexivity].
Qed.

Lemma to_nat_div (n f : nat) : Z.to_nat (Z.of_nat n / Z.of_nat f) = (n / f)%nat.
Proof. rewrite <- Nat2Z.inj_div. apply Nat2Z.id. Qed.

Lemma divisible_nat (n f : nat) :
  (0 < f)%nat -> Z.of_nat n mod Z.of_nat f = 0 -> n = (n / f * f)%nat.
Proof.
  intros Hf Hm.
  assert (Hz : Z.of_nat n = Z.of_nat f * (Z.of_nat n / Z.of_nat f)).
  { pose proof (Z.div_mod (Z.of_nat n) (Z.of_nat f)). lia. }
  rewrite <- Nat2Z.inj_div, <- Nat2Z.inj_mul in Hz. lia.
Qed.

Lemma not_divisible_nat (n f : nat) :
  (0 < f)%nat -> Z.of_nat n mod Z.of_nat f <> 0 -> (n / f * f < n)%nat.
Proof.
  intros Hf Hm.
  pose proof (Nat.div_mod n f ltac:(lia)) as Hd.
  assert (Hne : (n mod f <> 0)%nat).
  { intros E. apply Hm. rewrite <- Nat2Z.inj_mod. lia. }
  lia.
Qed.

Lemma div_mul_le (n f : nat) : (n / f * f <= n)%nat.
Proof.
  destruct f as [|f]; [lia|].
  pose proof (Nat.div_mod n (S f) ltac:(lia)). lia.
Qed.

(** The reshape of [downscale_3d] succeeds exactly when the eight new
    lengths multiply to the number of elements and are within the largest
    array size. *)
Lemma downscale_3d_unfold (a : Np.ndarray) (f nb nz nc nx ny : nat) :
  Np.shape a = [nb; nz; nc; nx; ny] -> (0 < f)%nat ->
  downscale_3d a (Z.of_nat f) =
    if (Np.size [nb; nz / f; f; nc; nx / f; f; ny / f; f]
        =? length (Np.data a))%nat
    then
      if Np.within_limit a
           (map Z.of_nat [nb; nz / f; f; nc; nx / f; f; ny / f; f]%nat)
      then Np.amax_2_5_7
             (Np.mk [nb; nz / f; f; nc; nx / f; f; ny / f; f]%nat
                (Np.data a))
      else Err ValueError
    else Err ValueError.
Proof.
  intros Hs Hf. unfold downscale_3d.
  destruct (shape_at_5d a _ _ _ _ _ Hs) as (-> & -> & -> & -> & ->).
  simpl. rewrite !py_div_pos by lia. simpl.
  rewrite reshape_nonneg.
  2:{ repeat constructor; try lia; apply Z.div_pos; lia. }
  cbn [map]. rewrite <- !Nat2Z.inj_div, !Nat2Z.id.
  destruct (_ =? _)%nat; [|reflexivity].
  destruct (Np.within_limit _ _); reflexivity.
Qed.

Lemma within_limit_fits (a : Np.ndarray) (dims : list Z) :
  Np.fits dims = true -> Np.within_limit a dims = true.
Proof.
  unfold Np.fits, Np.within_limit. intros Hf.
  apply Z.leb_le in Hf. apply Z.leb_le. lia.
Qed.

(** With no spatial length zero, the reshaped array has the volume of the
    input. *)
Lemma within_limit_positive (a : Np.ndarray) (k nb nz nc nx ny : nat) :
  Np.shape a = [nb; nz; nc; nx; ny] -> (0 < k)%nat ->
  nz = (nz / k * k)%nat -> nx = (nx / k * k)%nat -> ny = (ny / k * k)%nat ->
  (0 < nz /\ 0 < nx /\ 0 < ny)%nat ->
  Np.within_limit a
    (map Z.of_nat [nb; nz / k; k; nc; nx / k; k; ny / k; k]%nat) = true.
Proof.
  intros Hs Hk Hz Hx Hy (Pz & Px & Py).
  unfold Np.within_limit. rewrite Hs. apply Z.leb_le.
  apply Z.le_trans
    with (Np.nonzero_volume (map Z.of_nat [nb; nz; nc; nx; ny]));
    [|apply Z.le_max_r].
  assert (Ez : Z.of_nat nz = Z.of_nat (nz / k) * Z.of_nat k)
    by (rewrite <- Nat2Z.inj_mul; congruence).
  assert (Ex : Z.of_nat nx = Z.of_nat (nx / k) * Z.of_nat k)
    by (rewrite <- Nat2Z.inj_mul; congruence).
  assert (Ey : Z.of_nat ny = Z.of_nat (ny / k) * Z.of_nat k)
    by (rewrite <- Nat2Z.inj_mul; congruence).
  cbn [map Np.nonzero_volume].
  destruct (Z.eqb_spec (Z.of_nat nz) 0); [lia|].
  destruct (Z.eqb_spec (Z.of_nat nx) 0); [lia|].
  destruct (Z.eqb_spec (Z.of_nat ny) 0); [lia|].
  destruct (Z.eqb_spec (Z.of_nat (nz / k)) 0); [lia|].
  destruct (Z.eqb_spec (Z.of_nat (nx / k)) 0); [lia|].
  destruct (Z.eqb_spec (Z.of_nat (ny / k)) 0); [lia|].
  destruct (Z.eqb_spec (Z.of_nat k) 0); [lia|].
  rewrite Ez, Ex, Ey.
  destruct (Z.eqb_spec (Z.of_nat nb) 0), (Z.eqb_spec (Z.of_nat nc) 0);
    apply Z.eq_le_incl; ring.
Qed.

Lemma within_limit_blocks (a : Np.ndarray) (k nb nz nc nx ny : nat) :
  Np.shape a = [nb; nz; nc; nx; ny] -> (0 < k)%nat ->
  nz = (nz / k * k)%nat -> nx = (nx / k * k)%nat -> ny = (ny / k * k)%nat ->
  blocks_fit nb nz nc nx ny k ->
  Np.within_limit a
    (map Z.of_nat [nb; nz / k; k; nc; nx / k; k; ny / k; k]%nat) = true.
Proof.
  intros Hs Hk Hz Hx Hy [Hpos|Hfit].
  - apply (within_limit_positive a k nb nz nc nx ny); assumption.
  - apply within_limit_fits. exact Hfit.
Qed.

Lemma strict_product (a b c a' b' c' : nat) :
  (a <= a')%nat -> (b <= b')%nat -> (c <= c')%nat ->
  (0 < a' /\ 0 < b' /\ 0 < c')%nat ->
  (a < a' \/ b < b' \/ c < c')%nat ->
  (a * b * c < a' * b' * c')%nat.
Proof.
  intros Ha Hb Hc (Pa & Pb & Pc) Hs.
  assert (Hab : (a * b <= a' * b')%nat) by (apply Nat.mul_le_mono; assumption).
  assert (Pab : (0 < a' * b')%nat) by nia.
  destruct Hs as [Hs|[Hs|Hs]].
  - assert (a * b < a' * b')%nat by nia. nia.
  - assert (a * b < a' * b')%nat by nia. nia.
  - nia.
Qed.

Lemma at_reshaped_block (a : Np.ndarray) (f nb nz nc nx ny : nat)
    (b z i c x j y k : nat) :
  Np.shape a = [nb; nz / f * f; nc; nx / f * f; ny / f * f]%nat ->
  Np.at_nat
    (Np.mk [nb; nz / f; f; nc; nx / f; f; ny / f; f]%nat (Np.data a))
    [b; z; i; c; x; j; y; k]
  = Np.at_nat a [b; z * f + i; c; x * f + j; y * f + k]%nat.
Proof.
  intros Hs. unfold Np.at_nat. rewrite Hs. cbn [Np.shape Np.data].
  do 2 f_equal. cbn [Np.ravel Np.size]. ring.
Qed.

(** C4 (as amended), for a positive factor [f].  When [f] divides the three
    spatial lengths, and either none of them is zero or the eight lengths
    of the reshape are within the largest array size, the result has the
    spatial lengths divided by [f], keeps the batch and channel lengths,
    and each of its voxels is the disjunction of its block of the input.
    When [f] does not divide one of them and the input has at least one
    element, the call raises [ValueError]. *)
Theorem downscale_3d_spec (a : Np.ndarray) (f : Z) (nb nz nc nx ny : nat) :
  Np.shape a = [nb; nz; nc; nx; ny] -> Np.wf a -> 0 < f ->
  (Z.of_nat nz mod f = 0 -> Z.of_nat nx mod f = 0 ->
   Z.of_nat ny mod f = 0 ->
   blocks_fit nb nz nc nx ny (Z.to_nat f) ->
   exists r,
     downscale_3d a f = Ok r /\
     Np.shape r = [nb; nz / Z.to_nat f; nc; nx / Z.to_nat f;
                   ny / Z.to_nat f]%nat /\
     forall b z c x y : nat,
       (b < nb)%nat -> (z < nz / Z.to_nat f)%nat -> (c < nc)%nat ->
       (x < nx / Z.to_nat f)%nat -> (y < ny / Z.to_nat f)%nat ->
       Np.at_nat r [b; z; c; x; y] = block_or a (Z.to_nat f) b z c x y) /\
  ((0 < nb)%nat -> (0 < nz)%nat -> (0 < nc)%nat -> (0 < nx)%nat ->
   (0 < ny)%nat ->
   ~ (Z.of_nat nz mod f = 0 /\ Z.of_nat nx mod f = 0 /\
      Z.of_nat ny mod f = 0) ->
   downscale_3d a f = Err ValueError).
Proof.
  intros Hs Hw Hf.
  assert (Hfn : (0 < Z.to_nat f)%nat) by lia.
  rewrite <- (Z2Nat.id f) by lia.
  rewrite Nat2Z.id.
  set (k := Z.to_nat f) in *. clearbody k. clear Hf.
  rewrite (downscale_3d_unfold a k _ _ _ _ _ Hs Hfn).
  unfold Np.wf in Hw. rewrite Hs in Hw. rewrite Hw.
  cbn [Np.size].
  split.
  - intros Hz Hx Hy Hfit.
    apply divisible_nat in Hz, Hx, Hy; try assumption.
    assert (Hsz : (nb * (nz / k * (k * (nc * (nx / k * (k * (ny / k *
               (k * 1))))))) =? nb * (nz * (nc * (nx * (ny * 1)))))%nat
             = true).
    { apply Nat.eqb_eq. rewrite Hz at 2. rewrite Hx at 2. rewrite Hy at 2.
      ring. }
    rewrite Hsz.
    rewrite (within_limit_blocks a k nb nz nc nx ny Hs Hfn Hz Hx Hy Hfit).
    unfold Np.amax_2_5_7. cbn [Np.shape].
    replace (k =? 0)%nat with false by (symmetry; apply Nat.eqb_neq; lia).
    cbn [orb]. eexists. split; [reflexivity|]. split; [reflexivity|].
    intros b z c x y Hb Hzr Hc Hxr Hyr.
    rewrite NpFacts.at_tabulate.
    2:{ cbn [Np.in_range].
        rewrite !(proj2 (Nat.ltb_lt _ _)) by assumption. reflexivity. }
    unfold block_or.
    apply existsb_ext_in; intros i _.
    apply existsb_ext_in; intros j _.
    apply existsb_ext_in; intros l _.
    apply at_reshaped_block. congruence.
  - intros Hb Hz Hc Hx Hy Hnd.
    pose proof (div_mul_le nz k) as Lz.
    pose proof (div_mul_le nx k) as Lx.
    pose proof (div_mul_le ny k) as Ly.
    assert (Hlt : (nz / k * k * (nx / k * k) * (ny / k * k)
                   < nz * nx * ny)%nat).
    { destruct (Z.eq_dec (Z.of_nat nz mod Z.of_nat k) 0) as [E1|E1];
        [destruct (Z.eq_dec (Z.of_nat nx mod Z.of_nat k) 0) as [E2|E2];
         [destruct (Z.eq_dec (Z.of_nat ny mod Z.of_nat k) 0) as [E3|E3];
          [tauto|] |] |].
      - apply not_divisible_nat in E3; [|assumption].
        apply (strict_product _ _ _ _ _ _ Lz Lx Ly); lia.
      - apply not_divisible_nat in E2; [|assumption].
        apply (strict_product _ _ _ _ _ _ Lz Lx Ly); lia.
      - apply not_divisible_nat in E1; [|assumption].
        apply (strict_product _ _ _ _ _ _ Lz Lx Ly); lia. }
    assert (Hne : (nb * (nz / k * (k * (nc * (nx / k * (k * (ny / k *
               (k * 1))))))) =? nb * (nz * (nc * (nx * (ny * 1)))))%nat
             = false).
    { apply Nat.eqb_neq.
      replace (nb * (nz / k * (k * (nc * (nx / k * (k * (ny / k *
               (k * 1))))))))%nat
        with (nb * nc * (nz / k * k * (nx / k * k) * (ny / k * k)))%nat
        by ring.
      replace (nb * (nz * (nc * (nx * (ny * 1)))))%nat
        with (nb * nc * (nz * nx * ny))%nat by ring.
      assert (0 < nb * nc)%nat by nia.
      nia. }
    rewrite Hne. reflexivity.
Qed.

(** C4 as stated fails: an input without elements is reshaped whatever its
    lengths, here a batch of no samples with a depth of 3 and factor 2. *)
Lemma downscale_3d_empty_input_returns :
  ~ (forall a f nb nz nc nx ny,
       Np.shape a = [nb; nz; nc; nx; ny] -> Np.wf a -> 0 < f ->
       ~ (Z.of_nat nz mod f = 0 /\ Z.of_nat nx mod f = 0 /\
          Z.of_nat ny mod f = 0) ->
       is_ok (downscale_3d a f) = false).
Proof.
  intros Hc.
  specialize (Hc (Np.zeros_nat [0; 3; 1; 4; 4]%nat) 2 0%nat 3%nat 1%nat
                 4%nat 4%nat eq_refl eq_refl eq_refl).
  assert (Hn : ~ (Z.of_nat 3 mod 2 = 0 /\ Z.of_nat 4 mod 2 = 0 /\
                  Z.of_nat 4 mod 2 = 0)) by (intros (E & _); discriminate E).
  specialize (Hc Hn). discriminate Hc.
Qed.

(** Lengths beyond the size limit are refused, whatever the number of
    elements. *)
Lemma downscale_3d_beyond_limit (a : Np.ndarray) (k nb nz nc nx ny : nat) :
  Np.shape a = [nb; nz; nc; nx; ny] -> (0 < k)%nat ->
  Np.within_limit a
    (map Z.of_nat [nb; nz / k; k; nc; nx / k; k; ny / k; k]%nat) = false ->
  downscale_3d a (Z.of_nat k) = Err ValueError.
Proof.
  intros Hs Hk Hlim.
  rewrite (downscale_3d_unfold a k _ _ _ _ _ Hs Hk), Hlim.
  destruct (_ =? _)%nat; reflexivity.
Qed.

(** The size limit at work: the array without elements of shape
    (1, 0, 1, 0, 0) is not downscaled by 2^21, although 2^21 divides 0:
    the three block lengths multiply to 2^63. *)
Lemma downscale_3d_size_limit :
  downscale_3d (Np.zeros_nat [1; 0; 1; 0; 0]%nat) (2 ^ 21) = Err ValueError.
Proof.
  assert (Hk : Z.of_nat (Z.to_nat (2 ^ 21)) = 2 ^ 21)
    by (apply Z2Nat.id; lia).
  assert (Pk : (0 < Z.to_nat (2 ^ 21))%nat) by lia.
  rewrite <- Hk at 1.
  set (k := Z.to_nat (2 ^ 21)) in *. clearbody k.
  apply (downscale_3d_beyond_limit (Np.zeros_nat [1; 0; 1; 0; 0]%nat)
           k 1 0 1 0 0 eq_refl Pk).
  unfold Np.within_limit.
  rewrite !Nat.Div0.div_0_l.
  cbn [map Np.nonzero_volume Np.shape Np.zeros_nat].
  rewrite Hk. reflexivity.
Qed.

Lemma downscale_3d_spec_witness :
  (exists r,
     downscale_3d grid_2 2 = Ok r /\
     Np.shape r = [1; 2 / Z.to_nat 2; 1; 2 / Z.to_nat 2;
                   2 / Z.to_nat 2]%nat /\
     forall b z c x y : nat,
       (b < 1)%nat -> (z < 2 / Z.to_nat 2)%nat -> (c < 1)%nat ->
       (x < 2 / Z.to_nat 2)%nat -> (y < 2 / Z.to_nat 2)%nat ->
       Np.at_nat r [b; z; c; x; y] =
         block_or grid_2 (Z.to_nat 2) b z c x y) /\
  downscale_3d (Np.zeros_nat [1; 3; 1; 2; 2]%nat) 2 = Err ValueError.
Proof.
  split.
  - apply (proj1 (downscale_3d_spec grid_2 2 1%nat 2%nat 1%nat 2%nat 2%nat
                    eq_refl eq_refl eq_refl));
      [reflexivity | reflexivity | reflexivity | left; lia].
  - apply (proj2 (downscale_3d_spec (Np.zeros_nat [1; 3; 1; 2; 2]%nat)
                    2 1%nat 3%nat 1%nat 2%nat 2%nat
                    eq_refl eq_refl eq_refl));
      try (simpl; lia).
    intros (E & _). discriminate E.
Defined.

(** ** Commands that mark cells *)

Lemma norm_index_lt (n : nat) (i : Z) (j : nat) :
  Np.norm_index n i = Ok j -> (j < n)%nat.
Proof.
  unfold Np.norm_index.
  destruct (Z.leb_spec 0 i), (Z.ltb_spec i (Z.of_nat n)); simpl;
    try (intros [= <-]; lia);
    destruct (Z.leb_spec (- Z.of_nat n) i), (Z.ltb_spec i 0); simpl;
    try discriminate; intros [= <-]; lia.
Qed.

Lemma norm_indices_in_range (sh : list nat) (idx : list Z) (js : list nat) :
  Np.norm_indices sh idx = Ok js -> Np.in_range sh js = true.
Proof.
  revert idx js; induction sh as [|n sh IH]; intros [|i idx] js; simpl;
    try discriminate.
  - intros [= <-]. reflexivity.
  - destruct (Np.norm_index n i) as [j|] eqn:Hj; simpl; [|discriminate].
    destruct (Np.norm_indices sh idx) as [js'|] eqn:Hjs; simpl;
      [|discriminate].
    intros [= <-]. simpl. apply norm_index_lt in Hj.
    rewrite (proj2 (Nat.ltb_lt _ _) Hj). simpl. eauto.
Qed.

Lemma writes_skip (sh : list nat) : writes sh Ok (fun _ => False).
Proof.
  intros sf Hs Hw. exists sf. repeat split; auto; tauto.
Qed.

Lemma writes_set (sh : list nat) (idx : list Z) (js : list nat) :
  Np.norm_indices sh idx = Ok js ->
  writes sh (fun sf => Np.set sf idx true) (fun k => k = js).
Proof.
  intros Hn sf Hs Hw.
  pose proof (norm_indices_in_range _ _ _ Hn) as Hr.
  exists (Np.set_nat sf js true). split.
  { unfold Np.set. rewrite Hs, Hn. simpl. unfold Np.set_nat.
    rewrite Hs. reflexivity. }
  split; [exact Hs|]. split; [apply NpFacts.wf_set_nat; assumption|].
  intros k Hk. rewrite <- Hs in Hr, Hk.
  rewrite NpFacts.at_set_nat by assumption.
  case_bool_decide as E; [subst k|]; intuition congruence.
Qed.

Lemma writes_iff (sh : list nat) (m : Np.ndarray -> result Np.ndarray)
    (P Q : list nat -> Prop) :
  (forall idx, Np.in_range sh idx = true -> (P idx <-> Q idx)) ->
  writes sh m P -> writes sh m Q.
Proof.
  intros HPQ Hm sf Hs Hw. destruct (Hm sf Hs Hw) as (sf' & E & S' & W' & Hat).
  exists sf'. repeat split; auto.
  - intros Hsf. apply Hat in Hsf; [|assumption].
    destruct Hsf; [left|right; apply HPQ]; assumption.
  - intros Hsf. apply Hat; [assumption|].
    destruct Hsf; [left|right; apply HPQ]; assumption.
Qed.


(** A loop of marking commands marks the union of their cells. *)
Lemma writes_for_each {A : Type} (sh : list nat) (l : list A)
    (body : A -> Np.ndarray -> result Np.ndarray)
    (P : A -> list nat -> Prop) :
  (forall a, In a l -> writes sh (body a) (P a)) ->
  writes sh (for_each l body) (fun idx => exists a, In a l /\ P a idx).
Proof.
  induction l as [|a l IH]; intros Hb sf Hs Hw.
  - exists sf. repeat split; auto.
    intros [?|(a & [] & _)]; assumption.
  - destruct (Hb a (or_introl eq_refl) sf Hs Hw)
      as (sf1 & E1 & S1 & W1 & Hat1).
    destruct (IH (fun b Hin => Hb b (or_intror Hin)) sf1 S1 W1)
      as (sf2 & E2 & S2 & W2 & Hat2).
    exists sf2. simpl. rewrite E1. simpl. repeat split; auto.
    + intros Hsf. apply Hat2 in Hsf; [|assumption].
      destruct Hsf as [Hsf|(b & Hin & Hp)].
      * apply Hat1 in Hsf; [|assumption].
        destruct Hsf; [left; assumption|right].
        exists a. split; [left; reflexivity|assumption].
      * right. exists b. split; [right|]; assumption.
    + intros Hsf. apply Hat2; [assumption|].
      destruct Hsf as [Hsf|(b & [->|Hin] & Hp)].
      * left. apply Hat1; auto.
      * left. apply Hat1; auto.
      * right. exists b. split; assumption.
Qed.






Lemma norm_indices_5d (nb nz nc nx ny : nat) (i z c x y : Z) :
  0 <= i < Z.of_nat nb -> 0 <= z < Z.of_nat nz -> 0 <= c < Z.of_nat nc ->
  0 <= x < Z.of_nat nx -> 0 <= y < Z.of_nat ny ->
  Np.norm_indices [nb; nz; nc; nx; ny] [i; z; c; x; y] =
    Ok [Z.to_nat i; Z.to_nat z; Z.to_nat c; Z.to_nat x; Z.to_nat y].
Proof.
  intros. simpl. rewrite !NpFacts.norm_index_nonneg by assumption.
  reflexivity.
Qed.



(** ** The rasterizer *)

Section Rasterizer.
Context {F : Type} `{FloatOps F}.
Variable g : @rng F.






End Rasterizer.

(** ** Half completion *)

Lemma in_range_5d (n0 n1 n2 n3 n4 : nat) (idx : list nat) :
  Np.in_range [n0; n1; n2; n3; n4] idx = true ->
  exists i0 i1 i2 i3 i4,
    idx = [i0; i1; i2; i3; i4] /\
    (i0 < n0 /\ i1 < n1 /\ i2 < n2 /\ i3 < n3 /\ i4 < n4)%nat.
Proof.
  destruct idx as [|i0 [|i1 [|i2 [|i3 [|i4 [|]]]]]]; simpl;
    try discriminate;
    try (rewrite ?andb_false_r; discriminate).
  intros Hr.
  repeat (apply andb_prop in Hr as [?%Nat.ltb_lt Hr]).
  exists i0, i1, i2, i3, i4. split; [reflexivity|lia].
Qed.

Lemma in_range_5d_intro (n0 n1 n2 n3 n4 i0 i1 i2 i3 i4 : nat) :
  (i0 < n0 /\ i1 < n1 /\ i2 < n2 /\ i3 < n3 /\ i4 < n4)%nat ->
  Np.in_range [n0; n1; n2; n3; n4] [i0; i1; i2; i3; i4] = true.
Proof.
  intros (? & ? & ? & ? & ?). cbn [Np.in_range].
  rewrite !(proj2 (Nat.ltb_lt _ _)) by assumption. reflexivity.
Qed.


Section HalfCompletion.
Context {F : Type} `{FloatOps F}.
Variable g : @rng F.




End HalfCompletion.


(** ** The loops of the scan, in a module where [itertools] is bound

    The three theorems of this section are about the loops of
    [__kinect_scan] themselves: they hold in every module environment
    [globals] that binds [itertools], which the module as it is written
    does not. *)

Lemma in_product {A B : Type} (xs : list A) (ys : list B) (p : A * B) :
  In p (product xs ys) <-> In (fst p) xs /\ In (snd p) ys.
Proof.
  unfold product. rewrite in_flat_map. split.
  - intros (x & Hx & Hp). apply in_map_iff in Hp as (y & <- & Hy).
    split; assumption.
  - intros (Hx & Hy). exists (fst p). split; [assumption|].
    apply in_map_iff. exists (snd p). split; [|assumption].
    destruct p; reflexivity.
Qed.

(** The innermost loop marks the first occupied voxel of the column at or
    after depth [lo], if there is one. *)
Lemma writes_scan_column (sf : Np.ndarray) (nb n : nat) (i x y : Z) :
  Np.shape sf = [nb; n; 1%nat; n; n] ->
  0 <= i < Z.of_nat nb -> 0 <= x < Z.of_nat n -> 0 <= y < Z.of_nat n ->
  forall (k : nat) (lo : Z),
    Z.of_nat k = Z.of_nat n - lo -> 0 <= lo ->
    writes [nb; n; 1%nat; n; n]
      (scan_column sf i x y (xrange lo (Z.of_nat n)))
      (fun idx => exists z,
         lo <= z < Z.of_nat n /\
         Np.at_nat sf [Z.to_nat i; Z.to_nat z; 0%nat; Z.to_nat x; Z.to_nat y]
           = true /\
         (forall z', lo <= z' < z ->
            Np.at_nat sf [Z.to_nat i; Z.to_nat z'; 0%nat; Z.to_nat x;
                          Z.to_nat y] = false) /\
         idx = [Z.to_nat i; Z.to_nat z; 0%nat; Z.to_nat x; Z.to_nat y]).
Proof.
  intros Hs Hi Hx Hy. induction k as [|k IH]; intros lo Hk Hlo.
  - rewrite xrange_nil by lia. cbn [scan_column].
    eapply writes_iff; [|apply writes_skip].
    intros idx _. split; [tauto|]. intros (z & Hz & _). lia.
  - rewrite xrange_cons by lia. cbn [scan_column].
    unfold Np.get. rewrite Hs.
    change 0 with (Z.of_nat 0) at 1.
    rewrite norm_indices_5d by lia. cbn [rbind]. rewrite Nat2Z.id.
    destruct (Np.at_nat sf [Z.to_nat i; Z.to_nat lo; 0%nat; Z.to_nat x;
                            Z.to_nat y]) eqn:Hv.
    + eapply writes_iff; cycle 1.
      * apply writes_set.
        change 0 with (Z.of_nat 0) at 1.
        rewrite norm_indices_5d by lia. rewrite Nat2Z.id. reflexivity.
      * intros idx _. cbn beta. split.
        -- intros ->. exists lo.
           repeat split; try lia; try assumption; intros; lia.
        -- intros (z & Hz & Hat & Hbefore & ->).
           destruct (Z.eq_dec z lo) as [->|Hne]; [reflexivity|].
           rewrite (Hbefore lo) in Hv by lia. discriminate.
    + eapply writes_iff; [|apply (IH (lo + 1)); lia].
      intros idx _. cbn beta. split.
      * intros (z & Hz & Hat & Hbefore & ->).
        exists z. repeat split; try lia; try assumption.
        intros z' Hz'. destruct (Z.eq_dec z' lo) as [->|Hne];
          [assumption|apply Hbefore; lia].
      * intros (z & Hz & Hat & Hbefore & ->).
        assert (z <> lo) by (intros ->; congruence).
        exists z. repeat split; try lia; try assumption.
        intros z' Hz'. apply Hbefore. lia.
Qed.

Lemma first_hit_iff (sf : Np.ndarray) (i x y z : nat) :
  first_hit sf i x y z = true <->
  Np.at_nat sf [i; z; 0; x; y]%nat = true /\
  forall z', (z' < z)%nat -> Np.at_nat sf [i; z'; 0; x; y]%nat = false.
Proof.
  unfold first_hit. rewrite andb_true_iff, forallb_forall.
  split; intros (Hat & Hb); (split; [assumption|]).
  - intros z' Hz'. apply negb_true_iff. apply Hb. apply in_seq. lia.
  - intros z' Hz'. apply in_seq in Hz'. apply negb_true_iff. apply Hb. lia.
Qed.

(** The loops return a grid of the shape of the input in which a voxel is
    occupied exactly when it is the first occupied voxel of its column in
    the input. *)
Theorem kinect_scan_loops_spec (globals : list string) (self : dataset)
    (sf : Np.ndarray) (nb n : nat) :
  lookup_global globals "itertools" = Ok tt ->
  batch_size self = Z.of_nat nb -> patch_size self = Z.of_nat n ->
  Np.shape sf = [nb; n; 1%nat; n; n] ->
  exists res,
    kinect_scan globals self sf = Ok res /\
    Np.shape res = Np.shape sf /\ Np.wf res /\
    forall i z x y : nat,
      (i < nb)%nat -> (z < n)%nat -> (x < n)%nat -> (y < n)%nat ->
      Np.at_nat res [i; z; 0%nat; x; y] = first_hit sf i x y z.
Proof.
  intros Hg Hb Hn Hs. unfold kinect_scan. rewrite Hb, Hn, Hs.
  assert (Hwr : writes [nb; n; 1%nat; n; n]
    (for_each (xrange 0 (Z.of_nat nb)) (fun i res =>
       _ <- lookup_global globals "itertools" ;;
       for_each (product (xrange 0 (Z.of_nat n)) (xrange 0 (Z.of_nat n)))
         (fun xy res =>
            scan_column sf i (fst xy) (snd xy) (xrange 0 (Z.of_nat n)) res)
         res))
    (fun idx => exists i, In i (xrange 0 (Z.of_nat nb)) /\
       exists xy,
         In xy (product (xrange 0 (Z.of_nat n)) (xrange 0 (Z.of_nat n))) /\
         exists z,
           0 <= z < Z.of_nat n /\
           Np.at_nat sf [Z.to_nat i; Z.to_nat z; 0%nat; Z.to_nat (fst xy);
                         Z.to_nat (snd xy)] = true /\
           (forall z', 0 <= z' < z ->
              Np.at_nat sf [Z.to_nat i; Z.to_nat z'; 0%nat;
                            Z.to_nat (fst xy); Z.to_nat (snd xy)] = false) /\
           idx = [Z.to_nat i; Z.to_nat z; 0%nat; Z.to_nat (fst xy);
                  Z.to_nat (snd xy)])).
  { apply writes_for_each. intros i Hi. apply in_xrange in Hi.
    rewrite Hg. cbn [rbind].
    apply writes_for_each. intros xy Hxy.
    apply in_product in Hxy as (Hx%in_xrange & Hy%in_xrange).
    apply (writes_scan_column sf nb n i (fst xy) (snd xy) Hs
             ltac:(lia) ltac:(lia) ltac:(lia) n 0); lia. }
  destruct (Hwr (Np.zeros_nat [nb; n; 1%nat; n; n]) eq_refl
              (NpFacts.wf_zeros_nat _)) as (res & E & S' & W' & Hat).
  exists res. split; [exact E|]. split; [exact S'|]. split; [exact W'|].
  intros i z x y Hi Hz Hx Hy.
  apply eq_true_iff_eq.
  rewrite Hat by (apply in_range_5d_intro; lia).
  rewrite NpFacts.at_zeros_nat, first_hit_iff. split.
  - intros [Hf|(i' & Hi' & [x' y'] & Hxy & z' & Hz' & Hv & Hbefore & Heq)];
      [discriminate|].
    apply in_xrange in Hi'.
    apply in_product in Hxy as (Hx'%in_xrange & Hy'%in_xrange).
    cbn [fst snd] in *. injection Heq as -> -> -> ->.
    split; [assumption|].
    intros z0 Hz0. specialize (Hbefore (Z.of_nat z0) ltac:(lia)).
    rewrite Nat2Z.id in Hbefore. assumption.
  - intros (Hv & Hbefore). right.
    exists (Z.of_nat i). split; [apply in_xrange; lia|].
    exists (Z.of_nat x, Z.of_nat y).
    split; [apply in_product; cbn [fst snd]; split; apply in_xrange; lia|].
    exists (Z.of_nat z). cbn [fst snd]. rewrite !Nat2Z.id.
    repeat split; try lia; try assumption.
    intros z' Hz'. specialize (Hbefore (Z.to_nat z') ltac:(lia)).
    assumption.
Qed.

Lemma first_hit_unique (sf : Np.ndarray) (i x y z1 z2 : nat) :
  first_hit sf i x y z1 = true -> first_hit sf i x y z2 = true -> z1 = z2.
Proof.
  rewrite !first_hit_iff. intros (H1 & B1) (H2 & B2).
  destruct (Nat.lt_trichotomy z1 z2) as [Hlt|[Heq|Hgt]]; [|assumption|].
  - rewrite (B2 z1 Hlt) in H1. discriminate.
  - rewrite (B1 z2 Hgt) in H2. discriminate.
Qed.

Lemma first_hit_exists (sf : Np.ndarray) (i x y z : nat) :
  Np.at_nat sf [i; z; 0; x; y]%nat = true ->
  exists z0, (z0 <= z)%nat /\ first_hit sf i x y z0 = true.
Proof.
  induction z as [z IH] using lt_wf_ind. intros Hat.
  destruct (forallb (fun z' => negb (Np.at_nat sf [i; z'; 0; x; y]%nat))
              (seq 0 z)) eqn:Hall.
  - exists z. split; [lia|]. unfold first_hit. rewrite Hat, Hall.
    reflexivity.
  - assert (Hex : exists z', (z' < z)%nat /\
                    Np.at_nat sf [i; z'; 0; x; y]%nat = true).
    { destruct (existsb (fun z' => Np.at_nat sf [i; z'; 0; x; y]%nat)
                  (seq 0 z)) eqn:Hex.
      - apply existsb_exists in Hex as (z' & Hin & Hz').
        apply in_seq in Hin. exists z'. split; [lia|assumption].
      - exfalso. rewrite <- not_true_iff_false in Hall. apply Hall.
        apply forallb_forall. intros z' Hin. apply negb_true_iff.
        destruct (Np.at_nat sf [i; z'; 0; x; y]%nat) eqn:Hz';
          [|reflexivity].
        rewrite <- not_true_iff_false in Hex. exfalso. apply Hex.
        apply existsb_exists. exists z'. split; assumption. }
    destruct Hex as (z' & Hlt & Hz').
    destruct (IH z' Hlt Hz') as (z0 & Hle & Hf).
    exists z0. split; [lia|assumption].
Qed.

(** X14: in a module that binds [itertools], and for an input of the
    configured shape: in the grid returned by the loops every column has at
    most one occupied voxel; it is at the smallest occupied depth of the
    input column, and exists as soon as the input column has an occupied
    voxel; an empty input column gives an empty output column. *)
Theorem kinect_scan_loops_columns (globals : list string) (self : dataset)
    (sf : Np.ndarray) (nb n : nat) :
  lookup_global globals "itertools" = Ok tt ->
  batch_size self = Z.of_nat nb -> patch_size self = Z.of_nat n ->
  Np.shape sf = [nb; n; 1%nat; n; n] ->
  exists res,
    kinect_scan globals self sf = Ok res /\
    Np.shape res = Np.shape sf /\
    forall i x y : nat, (i < nb)%nat -> (x < n)%nat -> (y < n)%nat ->
      (forall z1 z2 : nat, (z1 < n)%nat -> (z2 < n)%nat ->
         Np.at_nat res [i; z1; 0%nat; x; y] = true ->
         Np.at_nat res [i; z2; 0%nat; x; y] = true -> z1 = z2) /\
      (forall z : nat, (z < n)%nat ->
         Np.at_nat res [i; z; 0%nat; x; y] = true ->
         Np.at_nat sf [i; z; 0%nat; x; y] = true /\
         forall z', (z' < z)%nat ->
           Np.at_nat sf [i; z'; 0%nat; x; y] = false) /\
      (forall z : nat, (z < n)%nat ->
         Np.at_nat sf [i; z; 0%nat; x; y] = true ->
         exists z0, (z0 <= z)%nat /\
           Np.at_nat res [i; z0; 0%nat; x; y] = true) /\
      ((forall z : nat, (z < n)%nat ->
          Np.at_nat sf [i; z; 0%nat; x; y] = false) ->
       forall z : nat, (z < n)%nat ->
         Np.at_nat res [i; z; 0%nat; x; y] = false).
Proof.
  intros Hg Hb Hn Hs.
  destruct (kinect_scan_loops_spec globals self sf nb n Hg Hb Hn Hs)
    as (res & E & S' & _ & Hat).
  exists res. split; [exact E|]. split; [exact S'|].
  intros i x y Hi Hx Hy. split; [|split; [|split]].
  - intros z1 z2 H1 H2. rewrite !Hat by assumption.
    apply first_hit_unique.
  - intros z Hz Hv. rewrite Hat in Hv by assumption.
    apply first_hit_iff in Hv. exact Hv.
  - intros z Hz Hv. destruct (first_hit_exists sf i x y z Hv)
      as (z0 & Hle & Hf).
    exists z0. split; [assumption|]. rewrite Hat by lia. assumption.
  - intros Hempty z Hz. rewrite Hat by assumption.
    unfold first_hit. rewrite (Hempty z Hz). reflexivity.
Qed.

(** X15: in a module that binds [itertools], and for an input of the
    configured shape: the loops are idempotent, and what they mark is
    occupied in the input. *)
Theorem kinect_scan_loops_idempotent (globals : list string)
    (self : dataset) (sf : Np.ndarray) (nb n : nat) :
  lookup_global globals "itertools" = Ok tt ->
  batch_size self = Z.of_nat nb -> patch_size self = Z.of_nat n ->
  Np.shape sf = [nb; n; 1%nat; n; n] ->
  exists res,
    kinect_scan globals self sf = Ok res /\
    kinect_scan globals self res = Ok res /\
    forall i z x y : nat,
      (i < nb)%nat -> (z < n)%nat -> (x < n)%nat -> (y < n)%nat ->
      Np.at_nat res [i; z; 0%nat; x; y] = true ->
      Np.at_nat sf [i; z; 0%nat; x; y] = true.
Proof.
  intros Hg Hb Hn Hs.
  destruct (kinect_scan_loops_spec globals self sf nb n Hg Hb Hn Hs)
    as (res & E & S' & W' & Hat).
  rewrite Hs in S'.
  destruct (kinect_scan_loops_spec globals self res nb n Hg Hb Hn S')
    as (res2 & E2 & S2 & W2 & Hat2).
  exists res. split; [exact E|]. split.
  - rewrite E2. f_equal. apply NpFacts.ndarray_ext; try assumption.
    intros idx Hr. rewrite S2, S' in Hr.
    destruct (in_range_5d _ _ _ _ _ _ Hr)
      as (i & z & ch & x & y & -> & Hi & Hz & Hc & Hx & Hy).
    assert (ch = 0%nat) as -> by lia.
    rewrite Hat2 by assumption.
    apply eq_true_iff_eq. rewrite first_hit_iff. split.
    + tauto.
    + intros Hv. split; [assumption|].
      intros z' Hz'.
      destruct (Np.at_nat res [i; z'; 0%nat; x; y]) eqn:Hv'; [|reflexivity].
      rewrite Hat in Hv, Hv' by lia.
      pose proof (first_hit_unique _ _ _ _ _ _ Hv Hv'). lia.
  - intros i z x y Hi Hz Hx Hy Hv. rewrite Hat in Hv by assumption.
    apply first_hit_iff in Hv. tauto.
Qed.

(** ** The containment tests in exact arithmetic *)

(** With rational centre and radius the two tests are the inequalities of
    the squared Euclidean distance and of the L1 distance. *)
Lemma in_sphere_exact (x0 y0 z0 r : Q) (x y z : Z) :
  in_sphere (PFloat x0) (PFloat y0) (PFloat z0) (PFloat r) x y z = true <->
  ((inject_Z x - x0) * (inject_Z x - x0)
   + (inject_Z y - y0) * (inject_Z y - y0)
   + (inject_Z z - z0) * (inject_Z z - z0) <= r * r)%Q.
Proof. unfold in_sphere. cbn. apply Qle_bool_iff. Qed.

Lemma in_diamond_exact (x0 y0 z0 r : Q) (x y z : Z) :
  in_diamond (PFloat x0) (PFloat y0) (PFloat z0) (PFloat r) x y z = true <->
  (Qabs (inject_Z x - x0) + Qabs (inject_Z y - y0)
   + Qabs (inject_Z z - z0) <= r)%Q.
Proof. unfold in_diamond. cbn. apply Qle_bool_iff. Qed.

(** * Further properties *)

(** ** Downscaling and max pooling *)

Lemma tabulate_ext (sh : list nat) (f h : list nat -> bool) :
  (forall idx, Np.in_range sh idx = true -> f idx = h idx) ->
  Np.tabulate sh f = Np.tabulate sh h.
Proof.
  intros Hfh. unfold Np.tabulate. f_equal.
  apply list_eq; intros k. rewrite !list_lookup_fmap.
  destruct (seq 0 (Np.size sh) !! k) as [j|] eqn:Hj; [|reflexivity].
  simpl. f_equal. apply Hfh. apply NpFacts.in_range_unravel.
  apply lookup_seq in Hj. lia.
Qed.

(** The grid of the blocks of [a]: what [downscale_3d] returns for a
    factor that divides the three spatial lengths, when the lengths of the
    reshape are within the size limit. *)
Lemma downscale_3d_blocks (a : Np.ndarray) (k nb nz nc nx ny : nat) :
  Np.shape a = [nb; nz; nc; nx; ny] -> Np.wf a -> (0 < k)%nat ->
  nz = (nz / k * k)%nat -> nx = (nx / k * k)%nat -> ny = (ny / k * k)%nat ->
  Np.within_limit a
    (map Z.of_nat [nb; nz / k; k; nc; nx / k; k; ny / k; k]%nat) = true ->
  downscale_3d a (Z.of_nat k) =
    Ok (Np.tabulate [nb; nz / k; nc; nx / k; ny / k]%nat
          (fun idx =>
             match idx with
             | [b; z; c; x; y] => block_or a k b z c x y
             | _ => false
             end)).
Proof.
  intros Hs Hw Hk Hz Hx Hy Hlim.
  rewrite (downscale_3d_unfold a k _ _ _ _ _ Hs Hk).
  unfold Np.wf in Hw. rewrite Hs in Hw. rewrite Hw. cbn [Np.size].
  assert (Hsz : (nb * (nz / k * (k * (nc * (nx / k * (k * (ny / k *
             (k * 1))))))) =? nb * (nz * (nc * (nx * (ny * 1)))))%nat
           = true).
  { apply Nat.eqb_eq. rewrite Hz at 2. rewrite Hx at 2. rewrite Hy at 2.
    ring. }
  rewrite Hsz, Hlim. unfold Np.amax_2_5_7. cbn [Np.shape].
  replace (k =? 0)%nat with false by (symmetry; apply Nat.eqb_neq; lia).
  cbn [orb]. f_equal. apply tabulate_ext. intros idx Hr.
  destruct (in_range_5d _ _ _ _ _ _ Hr) as (b & z & c & x & y & -> & _).
  unfold block_or.
  apply existsb_ext_in; intros i _.
  apply existsb_ext_in; intros j _.
  apply existsb_ext_in; intros l _.
  apply at_reshaped_block. congruence.
Qed.

Lemma block_or_true (a : Np.ndarray) (f b z c x y : nat) :
  block_or a f b z c x y = true <->
  exists i j k, (i < f /\ j < f /\ k < f)%nat /\
    Np.at_nat a [b; z * f + i; c; x * f + j; y * f + k]%nat = true.
Proof.
  unfold block_or. split.
  - intros Hb.
    apply existsb_exists in Hb as (i & Hi%in_seq & Hb).
    apply existsb_exists in Hb as (j & Hj%in_seq & Hb).
    apply existsb_exists in Hb as (k & Hk%in_seq & Hb).
    exists i, j, k. split; [lia|assumption].
  - intros (i & j & k & (Hi & Hj & Hk) & Hb).
    apply existsb_exists. exists i. split; [apply in_seq; lia|].
    apply existsb_exists. exists j. split; [apply in_seq; lia|].
    apply existsb_exists. exists k. split; [apply in_seq; lia|].
    assumption.
Qed.

(** Blocks of side 1 keep the lengths of the array, so they pass the size
    limit whatever the array. *)
Lemma within_limit_factor_1 (a : Np.ndarray) (nb nz nc nx ny : nat) :
  Np.shape a = [nb; nz; nc; nx; ny] ->
  Np.within_limit a
    (map Z.of_nat [nb; nz / 1; 1; nc; nx / 1; 1; ny / 1; 1]%nat) = true.
Proof.
  intros Hs. unfold Np.within_limit. rewrite Hs, !Nat.div_1_r.
  apply Z.leb_le.
  apply Z.le_trans
    with (Np.nonzero_volume (map Z.of_nat [nb; nz; nc; nx; ny]));
    [|apply Z.le_max_r].
  cbn [map Np.nonzero_volume].
  change (Z.of_nat 1 =? 0) with false. cbn iota.
  change (Z.of_nat 1) with 1.
  repeat match goal with
         | |- context [?x =? 0] => destruct (Z.eqb_spec x 0)
         end; lia.
Qed.

(** X1: with factor 1 [downscale_3d] returns its input. *)
Theorem downscale_3d_factor_1 (a : Np.ndarray) (nb nz nc nx ny : nat) :
  Np.shape a = [nb; nz; nc; nx; ny] -> Np.wf a ->
  downscale_3d a 1 = Ok a.
Proof.
  intros Hs Hw.
  change 1 with (Z.of_nat 1).
  rewrite (downscale_3d_blocks a 1 nb nz nc nx ny Hs Hw)
    by (first [apply (within_limit_factor_1 a nb nz nc nx ny Hs)
              | rewrite ?Nat.div_1_r; lia]).
  f_equal. symmetry. apply NpFacts.ndarray_ext.
  - exact Hw.
  - apply NpFacts.wf_tabulate.
  - rewrite Hs, NpFacts.shape_tabulate, !Nat.div_1_r. reflexivity.
  - rewrite Hs. intros idx Hr.
    rewrite NpFacts.at_tabulate by (rewrite !Nat.div_1_r; exact Hr).
    destruct (in_range_5d _ _ _ _ _ _ Hr) as (b & z & c & x & y & -> & _).
    unfold block_or. cbn [seq existsb]. rewrite !orb_false_r.
    rewrite !Nat.mul_1_r, !Nat.add_0_r. reflexivity.
Qed.

Lemma downscale_3d_factor_1_witness : downscale_3d grid_2 1 = Ok grid_2.
Proof.
  apply (downscale_3d_factor_1 grid_2 1 2 1 2 2); reflexivity.
Defined.

Lemma factor_nat (f : Z) (n : nat) :
  0 < f -> Z.of_nat n mod f = 0 ->
  n = (n / Z.to_nat f * Z.to_nat f)%nat.
Proof.
  intros Hf Hm. apply divisible_nat; [lia|].
  rewrite Z2Nat.id by lia. assumption.
Qed.

(** X2: for a positive factor that divides the three spatial lengths, the
    all-empty grid is downscaled to the all-empty grid of the reduced
    shape, when no spatial length is zero or the lengths of the reshape
    are within the largest array size. *)
Theorem downscale_3d_zeros (f : Z) (nb nz nc nx ny : nat) :
  0 < f ->
  Z.of_nat nz mod f = 0 -> Z.of_nat nx mod f = 0 -> Z.of_nat ny mod f = 0 ->
  blocks_fit nb nz nc nx ny (Z.to_nat f) ->
  downscale_3d (Np.zeros_nat [nb; nz; nc; nx; ny]) f =
    Ok (Np.zeros_nat [nb; nz / Z.to_nat f; nc; nx / Z.to_nat f;
                      ny / Z.to_nat f]%nat).
Proof.
  intros Hf Hz Hx Hy Hfit.
  apply factor_nat in Hz, Hx, Hy; try assumption.
  rewrite <- (Z2Nat.id f) at 1 by lia.
  rewrite (downscale_3d_blocks (Np.zeros_nat [nb; nz; nc; nx; ny])
             (Z.to_nat f) nb nz nc nx ny eq_refl
             (NpFacts.wf_zeros_nat _) ltac:(lia) Hz Hx Hy
             (within_limit_blocks (Np.zeros_nat [nb; nz; nc; nx; ny])
                (Z.to_nat f) nb nz nc nx ny eq_refl ltac:(lia)
                Hz Hx Hy Hfit)).
  f_equal. apply NpFacts.ndarray_ext.
  - apply NpFacts.wf_tabulate.
  - apply NpFacts.wf_zeros_nat.
  - reflexivity.
  - rewrite NpFacts.shape_tabulate. intros idx Hr.
    rewrite NpFacts.at_tabulate by assumption.
    rewrite NpFacts.at_zeros_nat.
    destruct (in_range_5d _ _ _ _ _ _ Hr) as (b & z & c & x & y & -> & _).
    apply not_true_iff_false. intros Hb.
    apply block_or_true in Hb as (i & j & k & _ & Hb).
    rewrite NpFacts.at_zeros_nat in Hb. discriminate.
Qed.

Lemma downscale_3d_zeros_witness :
  downscale_3d (Np.zeros_nat [2; 4; 1; 4; 4]%nat) 2 =
    Ok (Np.zeros_nat [2; 4 / Z.to_nat 2; 1; 4 / Z.to_nat 2;
                      4 / Z.to_nat 2]%nat).
Proof.
  apply (downscale_3d_zeros 2 2%nat 4%nat 1%nat 4%nat 4%nat);
    [lia | reflexivity | reflexivity | reflexivity | left; lia].
Defined.

Lemma three_unknown_dims (a b c d e : Z) :
  Nat.le 3 (length (filter (fun x => x = -1) [a; b; -1; c; d; -1; e; -1])).
Proof.
  rewrite !filter_cons, filter_nil.
  repeat match goal with
         | |- context [decide (?x = -1)] => destruct (decide (x = -1))
         end; simpl; lia.
Qed.

(** X3: on a 5-d input a factor of zero raises [ZeroDivisionError] and a
    negative factor raises [ValueError]. *)
Theorem downscale_3d_bad_factor (a : Np.ndarray) (f : Z)
    (nb nz nc nx ny : nat) :
  Np.shape a = [nb; nz; nc; nx; ny] ->
  (f = 0 -> downscale_3d a f = Err ZeroDivisionError) /\
  (f < 0 -> downscale_3d a f = Err ValueError).
Proof.
  intros Hs. unfold downscale_3d.
  destruct (shape_at_5d a _ _ _ _ _ Hs) as (-> & -> & -> & -> & ->).
  cbn [rbind]. split.
  - intros ->. reflexivity.
  - intros Hf. unfold py_div.
    destruct (Z.eqb_spec f 0) as [|_]; [lia|]. cbn [rbind].
    unfold Np.reshape.
    destruct (existsb _ _) eqn:He; [reflexivity|].
    assert (f = -1) as ->.
    { cbn [existsb] in He. repeat (apply orb_false_elim in He as [? He]).
      repeat match goal with
             | E : (_ <? _) = false |- _ => apply Z.ltb_ge in E
             end.
      lia. }
    pose proof (three_unknown_dims (Z.of_nat nb) (Z.of_nat nz / -1)
                  (Z.of_nat nc) (Z.of_nat nx / -1) (Z.of_nat ny / -1))
      as H3.
    destruct (length _) as [|[|[|n]]] eqn:El in H3 |- *; try lia.
    reflexivity.
Qed.

Lemma downscale_3d_bad_factor_witness :
  downscale_3d grid_2 0 = Err ZeroDivisionError /\
  downscale_3d grid_2 (-2) = Err ValueError.
Proof.
  split.
  - apply (proj1 (downscale_3d_bad_factor grid_2 0 1%nat 2%nat 1%nat 2%nat
                    2%nat eq_refl)).
    reflexivity.
  - apply (proj2 (downscale_3d_bad_factor grid_2 (-2) 1%nat 2%nat 1%nat
                    2%nat 2%nat eq_refl)).
    lia.
Defined.

Lemma divides_product (n f g : nat) :
  (0 < f)%nat -> (0 < g)%nat -> n = (n / (f * g) * (f * g))%nat ->
  n = (n / f * f)%nat /\ (n / f = n / f / g * g)%nat.
Proof.
  intros Hf Hg Hn.
  assert (Hq : (n / f = n / (f * g) * g)%nat).
  { rewrite Hn at 1.
    replace (n / (f * g) * (f * g))%nat with (n / (f * g) * g * f)%nat
      by ring.
    apply Nat.div_mul. lia. }
  split.
  - rewrite Hq. rewrite Hn at 1. ring.
  - rewrite Nat.Div0.div_div. exact Hq.
Qed.

(** The blocks of side [g] of the grid of blocks of side [f] are the
    blocks of side [f * g]. *)
Lemma block_or_blocks (a : Np.ndarray) (f g nb nz nc nx ny : nat)
    (b z c x y : nat) :
  (0 < f)%nat -> (0 < g)%nat ->
  (nz / f = nz / f / g * g)%nat -> (nx / f = nx / f / g * g)%nat ->
  (ny / f = ny / f / g * g)%nat ->
  (b < nb)%nat -> (z < nz / f / g)%nat -> (c < nc)%nat ->
  (x < nx / f / g)%nat -> (y < ny / f / g)%nat ->
  block_or
    (Np.tabulate [nb; nz / f; nc; nx / f; ny / f]%nat
       (fun idx =>
          match idx with
          | [b; z; c; x; y] => block_or a f b z c x y
          | _ => false
          end)) g b z c x y
  = block_or a (f * g) b z c x y.
Proof.
  intros Hf Hg Hz Hx Hy Hb Hzr Hc Hxr Hyr.
  apply eq_true_iff_eq. rewrite !block_or_true. split.
  - intros (i & j & k & (Hi & Hj & Hk) & Hv).
    rewrite NpFacts.at_tabulate in Hv.
    2:{ apply in_range_5d_intro. rewrite Hz, Hx, Hy. nia. }
    apply block_or_true in Hv as (i' & j' & k' & (Hi' & Hj' & Hk') & Hv).
    exists (i * f + i')%nat, (j * f + j')%nat, (k * f + k')%nat.
    split; [nia|].
    replace (z * (f * g) + (i * f + i'))%nat
      with ((z * g + i) * f + i')%nat by ring.
    replace (x * (f * g) + (j * f + j'))%nat
      with ((x * g + j) * f + j')%nat by ring.
    replace (y * (f * g) + (k * f + k'))%nat
      with ((y * g + k) * f + k')%nat by ring.
    exact Hv.
  - intros (i & j & k & (Hi & Hj & Hk) & Hv).
    exists (i / f)%nat, (j / f)%nat, (k / f)%nat.
    split; [repeat split; apply Nat.Div0.div_lt_upper_bound; lia|].
    rewrite NpFacts.at_tabulate.
    2:{ apply in_range_5d_intro. rewrite Hz, Hx, Hy.
        assert (i / f < g)%nat by (apply Nat.Div0.div_lt_upper_bound; lia).
        assert (j / f < g)%nat by (apply Nat.Div0.div_lt_upper_bound; lia).
        assert (k / f < g)%nat by (apply Nat.Div0.div_lt_upper_bound; lia).
        nia. }
    apply block_or_true.
    exists (i mod f)%nat, (j mod f)%nat, (k mod f)%nat.
    split; [repeat split; apply Nat.mod_upper_bound; lia|].
    pose proof (Nat.div_mod i f ltac:(lia)) as Di.
    pose proof (Nat.div_mod j f ltac:(lia)) as Dj.
    pose proof (Nat.div_mod k f ltac:(lia)) as Dk.
    replace ((z * g + i / f) * f + i mod f)%nat
      with (z * (f * g) + i)%nat by nia.
    replace ((x * g + j / f) * f + j mod f)%nat
      with (x * (f * g) + j)%nat by nia.
    replace ((y * g + k / f) * f + k mod f)%nat
      with (y * (f * g) + k)%nat by nia.
    exact Hv.
Qed.

(** X4: downscaling by [f] and then by [g] is downscaling by [f * g], for
    positive factors whose product divides the three spatial lengths, none
    of which is zero. *)
Theorem downscale_3d_twice (a : Np.ndarray) (f g : Z)
    (nb nz nc nx ny : nat) :
  Np.shape a = [nb; nz; nc; nx; ny] -> Np.wf a -> 0 < f -> 0 < g ->
  (0 < nz)%nat -> (0 < nx)%nat -> (0 < ny)%nat ->
  Z.of_nat nz mod (f * g) = 0 -> Z.of_nat nx mod (f * g) = 0 ->
  Z.of_nat ny mod (f * g) = 0 ->
  (r <- downscale_3d a f ;; downscale_3d r g) = downscale_3d a (f * g) /\
  is_ok (downscale_3d a (f * g)) = true.
Proof.
  intros Hs Hw Hf Hg Pz Px Py Hz Hx Hy.
  apply factor_nat in Hz, Hx, Hy; try lia.
  rewrite Z2Nat.inj_mul in Hz, Hx, Hy by lia.
  set (kf := Z.to_nat f) in *. set (kg := Z.to_nat g) in *.
  assert (Pf : (0 < kf)%nat) by lia. assert (Pg : (0 < kg)%nat) by lia.
  destruct (divides_product nz kf kg Pf Pg Hz) as (Hz1 & Hz2).
  destruct (divides_product nx kf kg Pf Pg Hx) as (Hx1 & Hx2).
  destruct (divides_product ny kf kg Pf Pg Hy) as (Hy1 & Hy2).
  replace f with (Z.of_nat kf) by lia. replace g with (Z.of_nat kg) by lia.
  rewrite <- Nat2Z.inj_mul.
  assert (Pfg : (0 < kf * kg)%nat) by nia.
  assert (Qz : (0 < nz / kf)%nat) by nia.
  assert (Qx : (0 < nx / kf)%nat) by nia.
  assert (Qy : (0 < ny / kf)%nat) by nia.
  rewrite (downscale_3d_blocks a (kf * kg) nb nz nc nx ny Hs Hw
             Pfg Hz Hx Hy
             (within_limit_positive a _ nb nz nc nx ny Hs Pfg Hz Hx Hy
                (conj Pz (conj Px Py)))).
  split; [|reflexivity].
  rewrite (downscale_3d_blocks a kf nb nz nc nx ny Hs Hw Pf Hz1 Hx1 Hy1
             (within_limit_positive a _ nb nz nc nx ny Hs Pf Hz1 Hx1 Hy1
                (conj Pz (conj Px Py)))).
  cbn [rbind].
  rewrite (downscale_3d_blocks _ kg nb (nz / kf) nc (nx / kf) (ny / kf)
             (NpFacts.shape_tabulate _ _) (NpFacts.wf_tabulate _ _)
             Pg Hz2 Hx2 Hy2
             (within_limit_positive _ _ nb (nz / kf) nc (nx / kf) (ny / kf)
                (NpFacts.shape_tabulate _ _) Pg Hz2 Hx2 Hy2
                (conj Qz (conj Qx Qy)))).
  f_equal. rewrite !Nat.Div0.div_div.
  apply tabulate_ext. intros idx Hr.
  destruct (in_range_5d _ _ _ _ _ _ Hr)
    as (b & z & c & x & y & -> & Hb & Hzr & Hc & Hxr & Hyr).
  rewrite <- !Nat.Div0.div_div in Hzr, Hxr, Hyr.
  apply (block_or_blocks a kf kg nb nz nc nx ny); assumption.
Qed.

Lemma downscale_3d_twice_witness :
  (r <- downscale_3d grid_4 2 ;; downscale_3d r 2)
  = downscale_3d grid_4 (2 * 2) /\
  is_ok (downscale_3d grid_4 (2 * 2)) = true.
Proof.
  apply (downscale_3d_twice grid_4 2 2 1%nat 4%nat 1%nat 4%nat 4%nat);
    try reflexivity; lia.
Defined.

(** X5: downscaling keeps occupancy.  For a positive factor that divides
    the three spatial lengths, none of them zero or the lengths of the
    reshape within the largest array size, an occupied voxel of the input
    makes the output voxel of its block occupied, and an occupied output
    voxel has an occupied input voxel in its block. *)
Theorem downscale_3d_occupancy (a : Np.ndarray) (f : Z)
    (nb nz nc nx ny : nat) :
  Np.shape a = [nb; nz; nc; nx; ny] -> Np.wf a -> 0 < f ->
  Z.of_nat nz mod f = 0 -> Z.of_nat nx mod f = 0 -> Z.of_nat ny mod f = 0 ->
  blocks_fit nb nz nc nx ny (Z.to_nat f) ->
  exists r,
    downscale_3d a f = Ok r /\
    (forall b z c x y : nat,
       (b < nb)%nat -> (z < nz)%nat -> (c < nc)%nat -> (x < nx)%nat ->
       (y < ny)%nat ->
       Np.at_nat a [b; z; c; x; y] = true ->
       Np.at_nat r [b; z / Z.to_nat f; c; x / Z.to_nat f;
                    y / Z.to_nat f]%nat = true) /\
    (forall b z c x y : nat,
       (b < nb)%nat -> (z < nz / Z.to_nat f)%nat -> (c < nc)%nat ->
       (x < nx / Z.to_nat f)%nat -> (y < ny / Z.to_nat f)%nat ->
       Np.at_nat r [b; z; c; x; y] = true ->
       exists z' x' y' : nat,
         (z' / Z.to_nat f = z /\ x' / Z.to_nat f = x /\
          y' / Z.to_nat f = y)%nat /\
         Np.at_nat a [b; z'; c; x'; y'] = true).
Proof.
  intros Hs Hw Hf Hz Hx Hy Hfit.
  apply factor_nat in Hz, Hx, Hy; try assumption.
  set (k := Z.to_nat f) in *. assert (Hk : (0 < k)%nat) by lia.
  replace f with (Z.of_nat k) by lia.
  rewrite (downscale_3d_blocks a k nb nz nc nx ny Hs Hw Hk Hz Hx Hy
             (within_limit_blocks a k nb nz nc nx ny Hs Hk Hz Hx Hy Hfit)).
  eexists. split; [reflexivity|]. split.
  - intros b z c x y Hb Hzr Hc Hxr Hyr Hv.
    assert (z / k < nz / k)%nat
      by (apply Nat.Div0.div_lt_upper_bound; lia).
    assert (x / k < nx / k)%nat
      by (apply Nat.Div0.div_lt_upper_bound; lia).
    assert (y / k < ny / k)%nat
      by (apply Nat.Div0.div_lt_upper_bound; lia).
    rewrite NpFacts.at_tabulate by (apply in_range_5d_intro; lia).
    apply block_or_true.
    exists (z mod k)%nat, (x mod k)%nat, (y mod k)%nat.
    split; [repeat split; apply Nat.mod_upper_bound; lia|].
    pose proof (Nat.div_mod z k ltac:(lia)).
    pose proof (Nat.div_mod x k ltac:(lia)).
    pose proof (Nat.div_mod y k ltac:(lia)).
    replace (z / k * k + z mod k)%nat with z by lia.
    replace (x / k * k + x mod k)%nat with x by lia.
    replace (y / k * k + y mod k)%nat with y by lia.
    exact Hv.
  - intros b z c x y Hb Hzr Hc Hxr Hyr Hv.
    rewrite NpFacts.at_tabulate in Hv by (apply in_range_5d_intro; lia).
    apply block_or_true in Hv as (i & j & l & (Hi & Hj & Hl) & Hv).
    exists (z * k + i)%nat, (x * k + j)%nat, (y * k + l)%nat.
    split; [|exact Hv].
    split; [|split]; symmetry.
    + apply (Nat.div_unique _ k z i); lia.
    + apply (Nat.div_unique _ k x j); lia.
    + apply (Nat.div_unique _ k y l); lia.
Qed.

Lemma downscale_3d_occupancy_witness :
  exists r,
    downscale_3d grid_2 2 = Ok r /\
    (forall b z c x y : nat,
       (b < 1)%nat -> (z < 2)%nat -> (c < 1)%nat -> (x < 2)%nat ->
       (y < 2)%nat ->
       Np.at_nat grid_2 [b; z; c; x; y] = true ->
       Np.at_nat r [b; z / Z.to_nat 2; c; x / Z.to_nat 2;
                    y / Z.to_nat 2]%nat = true) /\
    (forall b z c x y : nat,
       (b < 1)%nat -> (z < 2 / Z.to_nat 2)%nat -> (c < 1)%nat ->
       (x < 2 / Z.to_nat 2)%nat -> (y < 2 / Z.to_nat 2)%nat ->
       Np.at_nat r [b; z; c; x; y] = true ->
       exists z' x' y' : nat,
         (z' / Z.to_nat 2 = z /\ x' / Z.to_nat 2 = x /\
          y' / Z.to_nat 2 = y)%nat /\
         Np.at_nat grid_2 [b; z'; c; x'; y'] = true).
Proof.
  apply (downscale_3d_occupancy grid_2 2 1%nat 2%nat 1%nat 2%nat 2%nat);
    [reflexivity | reflexivity | lia | reflexivity | reflexivity
    | reflexivity | left; lia].
Defined.

(** [numpy.amax] of the reshaped array is its [max] method: the two
    functions run the same reshape and the same reduction. *)
Lemma max_pool_3d_numpy_reshaped (a : Np.ndarray) (f : Z) :
  max_pool_3d_numpy a f = downscale_3d a f.
Proof. reflexivity. Qed.

(** X6: [max_pool_3d_numpy] computes block maxima.  For a positive factor
    that divides the three spatial lengths, none of them zero or the
    lengths of the reshape within the largest array size, it returns a
    grid with the spatial lengths divided by the factor, the batch and
    channel lengths kept, in which each voxel is the disjunction of its
    block of the input. *)
Theorem max_pool_3d_numpy_blocks (a : Np.ndarray) (f : Z)
    (nb nz nc nx ny : nat) :
  Np.shape a = [nb; nz; nc; nx; ny] -> Np.wf a -> 0 < f ->
  Z.of_nat nz mod f = 0 -> Z.of_nat nx mod f = 0 -> Z.of_nat ny mod f = 0 ->
  blocks_fit nb nz nc nx ny (Z.to_nat f) ->
  exists r,
    max_pool_3d_numpy a f = Ok r /\
    Np.shape r = [nb; nz / Z.to_nat f; nc; nx / Z.to_nat f;
                  ny / Z.to_nat f]%nat /\
    forall b z c x y : nat,
      (b < nb)%nat -> (z < nz / Z.to_nat f)%nat -> (c < nc)%nat ->
      (x < nx / Z.to_nat f)%nat -> (y < ny / Z.to_nat f)%nat ->
      Np.at_nat r [b; z; c; x; y] = block_or a (Z.to_nat f) b z c x y.
Proof.
  intros Hs Hw Hf Hz Hx Hy Hfit.
  apply factor_nat in Hz, Hx, Hy; try assumption.
  set (k := Z.to_nat f) in *. assert (Hk : (0 < k)%nat) by lia.
  replace f with (Z.of_nat k) by lia.
  rewrite (max_pool_3d_numpy_reshaped a (Z.of_nat k)).
  rewrite (downscale_3d_blocks a k nb nz nc nx ny Hs Hw Hk Hz Hx Hy
             (within_limit_blocks a k nb nz nc nx ny Hs Hk Hz Hx Hy Hfit)).
  eexists. split; [reflexivity|].
  split; [reflexivity|].
  intros b z c x y Hb Hzr Hc Hxr Hyr.
  rewrite NpFacts.at_tabulate by (apply in_range_5d_intro; lia).
  reflexivity.
Qed.

Lemma max_pool_3d_numpy_blocks_witness :
  exists r,
    max_pool_3d_numpy grid_2 2 = Ok r /\
    Np.shape r = [1; 2 / Z.to_nat 2; 1; 2 / Z.to_nat 2;
                  2 / Z.to_nat 2]%nat /\
    forall b z c x y : nat,
      (b < 1)%nat -> (z < 2 / Z.to_nat 2)%nat -> (c < 1)%nat ->
      (x < 2 / Z.to_nat 2)%nat -> (y < 2 / Z.to_nat 2)%nat ->
      Np.at_nat r [b; z; c; x; y] = block_or grid_2 (Z.to_nat 2) b z c x y.
Proof.
  apply (max_pool_3d_numpy_blocks grid_2 2 1%nat 2%nat 1%nat 2%nat 2%nat);
    [reflexivity | reflexivity | lia | reflexivity | reflexivity
    | reflexivity | left; lia].
Defined.

(** ** One-hot labels *)












(** ** The classification task *)


Section Classification.
Context {F : Type} `{FloatOps F}.
Variable g : @rng F.




End Classification.


(** ** Batch sizes and the scan in [next_batch] *)

Section NextBatchEdges.
Context {F : Type} `{FloatOps F}.
Variable g : @rng F.


(** X11: a negative batch size, which the constructor accepts, makes
    [next_batch] raise [ValueError] for each of the three tasks. *)
Theorem next_batch_negative_batch_size (globals : list string)
    (self : dataset) (c : nat) :
  batch_size self < 0 -> num_labels self = 3 ->
  task self = CLASSIFICATION_TASK \/ task self = KINECT_COMPLETION_TASK \/
  task self = HALF_COMPLETION_TASK ->
  next_batch g globals self c = Err ValueError.
Proof.
  intros Hb Hn Ht.
  assert (Hg : forall types c0,
            generate_solid_figures g self types c0 = Err ValueError).
  { intros types c0. unfold generate_solid_figures.
    destruct (draw_center g self c0) as [[[x0 y0] z0] c1].
    unfold Np.zeros. cbn [forallb].
    destruct (Z.leb_spec 0 (batch_size self)); [lia|]. reflexivity. }
  unfold next_batch.
  destruct Ht as [-> | [-> | ->]];
    cbn [Z.eqb KINECT_COMPLETION_TASK CLASSIFICATION_TASK
         HALF_COMPLETION_TASK Pos.eqb].
  - unfold np_random_randint. rewrite Hn.
    destruct (Z.ltb_spec (batch_size self) 0); [|lia]. reflexivity.
  - rewrite Hg. reflexivity.
  - rewrite Hg. reflexivity.
Qed.


End NextBatchEdges.


Lemma next_batch_negative_batch_size_witness :
  next_batch zero_rng module_globals
    (default_config HALF_COMPLETION_TASK (-1)) 0 = Err ValueError.
Proof.
  apply next_batch_negative_batch_size;
    [simpl; lia|reflexivity|right; right; reflexivity].
Defined.


(** ** Geometry types that are missing or unknown *)


Section UnknownTypes.
Context {F : Type} `{FloatOps F}.
Variable g : @rng F.



End UnknownTypes.


(** ** Witnesses for the loops of the scan *)

(** The column (3, 1) of [grid_8] is occupied from the depth 3 on, and the
    column (3, 5) is empty. *)
Lemma kinect_scan_loops_columns_witness :
  exists res,
    kinect_scan globals_with_itertools
      (default_config KINECT_COMPLETION_TASK 1) grid_8 = Ok res /\
    Np.shape res = [1; 8; 1; 8; 8]%nat /\
    Np.at_nat grid_8 [0; 3; 0; 3; 1]%nat = true /\
    Np.at_nat grid_8 [0; 5; 0; 3; 1]%nat = true /\
    Np.at_nat res [0; 3; 0; 3; 1]%nat = true /\
    Np.at_nat res [0; 5; 0; 3; 1]%nat = false /\
    Np.at_nat res [0; 5; 0; 3; 5]%nat = false.
Proof.
  destruct (kinect_scan_loops_columns globals_with_itertools
              (default_config KINECT_COMPLETION_TASK 1)
              grid_8 1 8 eq_refl eq_refl eq_refl eq_refl)
    as (res & E & S' & Hcol).
  exists res. split; [exact E|]. split; [exact S'|].
  assert (H3 : Np.at_nat grid_8 [0; 3; 0; 3; 1]%nat = true)
    by (vm_compute; reflexivity).
  assert (H5 : Np.at_nat grid_8 [0; 5; 0; 3; 1]%nat = true)
    by (vm_compute; reflexivity).
  split; [exact H3|]. split; [exact H5|].
  destruct (Hcol 0%nat 3%nat 1%nat) as (Huniq & Hfirst & Hhit & _);
    [lia | lia | lia |].
  assert (R3 : Np.at_nat res [0; 3; 0; 3; 1]%nat = true).
  { destruct (Hhit 3%nat ltac:(lia) H3) as (z0 & Hle & Hz0).
    destruct (Hfirst z0 ltac:(lia) Hz0) as (Hsf & _).
    destruct z0 as [|[|[|[|z0]]]]; try lia;
      try (vm_compute in Hsf; discriminate Hsf).
    exact Hz0. }
  split; [exact R3|]. split.
  - destruct (Np.at_nat res [0; 5; 0; 3; 1]%nat) eqn:R5; [|reflexivity].
    pose proof (Huniq 3%nat 5%nat ltac:(lia) ltac:(lia) R3 R5) as Heq.
    discriminate Heq.
  - destruct (Hcol 0%nat 3%nat 5%nat) as (_ & _ & _ & Hempty);
      [lia | lia | lia |].
    apply Hempty; [|lia].
    intros z Hz.
    do 8 (destruct z as [|z]; [vm_compute; reflexivity|]). lia.
Defined.

(** On [grid_8] the scan marks the voxel at the depth 3 of the column
    (3, 1), and scanning its result changes nothing. *)
Lemma kinect_scan_loops_idempotent_witness :
  exists res,
    kinect_scan globals_with_itertools
      (default_config KINECT_COMPLETION_TASK 1) grid_8 = Ok res /\
    kinect_scan globals_with_itertools
      (default_config KINECT_COMPLETION_TASK 1) res = Ok res /\
    Np.at_nat res [0; 3; 0; 3; 1]%nat = true /\
    (forall i z x y : nat,
       (i < 1)%nat -> (z < 8)%nat -> (x < 8)%nat -> (y < 8)%nat ->
       Np.at_nat res [i; z; 0%nat; x; y] = true ->
       Np.at_nat grid_8 [i; z; 0%nat; x; y] = true).
Proof.
  destruct (kinect_scan_loops_idempotent globals_with_itertools
              (default_config KINECT_COMPLETION_TASK 1)
              grid_8 1 8 eq_refl eq_refl eq_refl eq_refl)
    as (res & E & E2 & Hsub).
  exists res. split; [exact E|]. split; [exact E2|].
  split; [|exact Hsub].
  assert (Hg : Np.at_nat
                 (match kinect_scan globals_with_itertools
                          (default_config KINECT_COMPLETION_TASK 1) grid_8
                  with
                  | Ok r => r
                  | Err _ => grid_8
                  end) [0; 3; 0; 3; 1]%nat = true)
    by (vm_compute; reflexivity).
  rewrite E in Hg. exact Hg.
Defined.

(** ** Batches without samples *)



Section RotateEdges.
Context {F : Type} `{FloatOps F}.
Variable matrix : Type.
Variable rotate_points : matrix -> list nat -> result (list (F * F * F)).
Variable float_index : F -> result Z.


End RotateEdges.


(** ** Validation in the iterator of the model net dataset *)

Ltac branches :=
  repeat match goal with
         | |- context [if ?b then _ else _] => destruct b eqn:?
         | H : context [if ?b then _ else _] |- _ => destruct b eqn:?
         end;
  repeat match goal with
         | E : negb _ = true |- _ => apply negb_true_iff in E
         | E : negb _ = false |- _ => apply negb_false_iff in E
         | E : (_ =? _) = true |- _ => apply Z.eqb_eq in E
         | E : (_ =? _) = false |- _ => apply Z.eqb_neq in E
         | E : (_ <? _) = true |- _ => apply Z.ltb_lt in E
         | E : (_ <? _) = false |- _ => apply Z.ltb_ge in E
         end.

(** X18: [_validate_batch_size] accepts exactly the [int] (or [bool])
    batch sizes between 1 and the number of examples; every other
    argument raises [ValueError]. *)
Theorem validate_batch_size_spec (batch_size : pyarg)
    (dataset : model_net_dataset) :
  (validate_batch_size batch_size dataset = Ok tt <->
   isinstance_int batch_size = true /\
   1 <= int_value batch_size <= get_num_examples dataset) /\
  (validate_batch_size batch_size dataset <> Ok tt ->
   validate_batch_size batch_size dataset = Err ValueError).
Proof.
  unfold validate_batch_size.
  pose proof (Nat2Z.is_nonneg (length (examples dataset))) as Hn.
  fold (get_num_examples dataset) in Hn.
  split; [split|].
  - intros Ho.
    destruct batch_size as [|n|n|[|]]; simpl in Ho |- *; branches;
      try discriminate; split; try reflexivity; lia.
  - intros (Hi & Hr).
    destruct batch_size as [|n|n|[|]]; simpl in Hi, Hr |- *;
      try discriminate; branches; try reflexivity; lia.
  - intros Hne.
    destruct batch_size as [|n|n|[|]]; simpl in Hne |- *; branches;
      try reflexivity; contradiction Hne; reflexivity.
Qed.

(** X19: [_validate_num_batches] accepts exactly the [int] (or [bool])
    numbers of batches that are at least 1; every other argument raises
    [ValueError]. *)
Theorem validate_num_batches_spec (num_batches : pyarg) :
  (validate_num_batches num_batches = Ok tt <->
   isinstance_int num_batches = true /\ 1 <= int_value num_batches) /\
  (validate_num_batches num_batches <> Ok tt ->
   validate_num_batches num_batches = Err ValueError).
Proof.
  unfold validate_num_batches.
  split; [split|].
  - intros Ho.
    destruct num_batches as [|n|n|[|]]; simpl in Ho |- *; branches;
      try discriminate; split; try reflexivity; lia.
  - intros (Hi & Hr).
    destruct num_batches as [|n|n|[|]]; simpl in Hi, Hr |- *;
      try discriminate; branches; try reflexivity; lia.
  - intros Hne.
    destruct num_batches as [|n|n|[|]]; simpl in Hne |- *; branches;
      try reflexivity; contradiction Hne; reflexivity.
Qed.

Section IteratorInit.
Variable subset_iterator : Type.
Variable iteration_mode : Type.
Variable make_subset_iterator :
  iteration_mode -> Z -> pyarg -> pyarg -> result subset_iterator.
Variable post_processor : Type.

(** X20: when [Model_Net_Iterator.__init__] returns, the batch size is an
    integer between 1 and the number of examples, the number of batches is
    an integer of at least 1, and the iterator holds the dataset and the
    post processors it was given. *)
Theorem iterator_init_returns (dataset : model_net_dataset)
    (batch_size num_batches : pyarg) (mode : iteration_mode)
    (pp : list post_processor)
    (it : model_net_iterator subset_iterator post_processor) :
  iterator_init subset_iterator iteration_mode make_subset_iterator
    post_processor dataset batch_size num_batches mode pp = Ok it ->
  (isinstance_int batch_size = true /\
   1 <= int_value batch_size <= get_num_examples dataset) /\
  (isinstance_int num_batches = true /\ 1 <= int_value num_batches) /\
  it_dataset subset_iterator post_processor it = dataset /\
  it_post_processors subset_iterator post_processor it = pp.
Proof.
  unfold iterator_init. intros Hok.
  destruct (validate_batch_size batch_size dataset) as [[]|e] eqn:Eb;
    cbn [rbind] in Hok; [|discriminate].
  destruct (validate_num_batches num_batches) as [[]|e] eqn:En;
    cbn [rbind] in Hok; [|discriminate].
  destruct (make_subset_iterator mode (get_num_examples dataset)
              batch_size num_batches) as [si|e];
    cbn [rbind] in Hok; [|discriminate].
  injection Hok as <-.
  split; [|split; [|split; reflexivity]].
  - clear En. unfold validate_batch_size in Eb.
    pose proof (Nat2Z.is_nonneg (length (examples dataset))) as Hn.
    fold (get_num_examples dataset) in Hn.
    destruct batch_size as [|n|n|[|]]; simpl in Eb |- *; branches;
      try discriminate; split; try reflexivity; lia.
  - clear Eb. unfold validate_num_batches in En.
    destruct num_batches as [|n|n|[|]]; simpl in En |- *; branches;
      try discriminate; split; try reflexivity; lia.
Qed.

(** X21: on a dataset without examples [Model_Net_Iterator.__init__]
    raises [ValueError] for every batch size, number of batches and mode,
    before a subset iterator is made. *)
Theorem iterator_init_empty_dataset (dataset : model_net_dataset)
    (batch_size num_batches : pyarg) (mode : iteration_mode)
    (pp : list post_processor) :
  examples dataset = [] ->
  iterator_init subset_iterator iteration_mode make_subset_iterator
    post_processor dataset batch_size num_batches mode pp = Err ValueError.
Proof.
  intros He. unfold iterator_init, validate_batch_size, get_num_examples.
  rewrite He. cbn [length Z.of_nat].
  destruct batch_size as [|n|n|[|]]; simpl; branches;
    try reflexivity; lia.
Qed.

End IteratorInit.

Lemma iterator_init_returns_witness :
  (isinstance_int (AInt 2) = true /\
   1 <= int_value (AInt 2)
     <= get_num_examples
          {| mn_patch_size := 100;
             examples := [("a.off", "chair"); ("b.off", "chair")]%string |}) /\
  (isinstance_int (AInt 1) = true /\ 1 <= int_value (AInt 1)) /\
  it_dataset unit unit
    {| it_dataset :=
         {| mn_patch_size := 100;
            examples := [("a.off", "chair"); ("b.off", "chair")]%string |};
       it_subset_iterator := tt; it_post_processors := [] |}
  = {| mn_patch_size := 100;
       examples := [("a.off", "chair"); ("b.off", "chair")]%string |} /\
  it_post_processors unit unit
    {| it_dataset :=
         {| mn_patch_size := 100;
            examples := [("a.off", "chair"); ("b.off", "chair")]%string |};
       it_subset_iterator := tt; it_post_processors := [] |}
  = [].
Proof.
  apply (iterator_init_returns unit unit (fun _ _ _ _ => Ok tt) unit
           {| mn_patch_size := 100;
              examples := [("a.off", "chair"); ("b.off", "chair")]%string |}
           (AInt 2) (AInt 1) tt []).
  reflexivity.
Defined.

Lemma iterator_init_empty_dataset_witness :
  iterator_init unit unit (fun _ _ _ _ => Ok tt) unit
    {| mn_patch_size := 100; examples := [] |} (AInt 1) (AInt 1) tt []
  = Err ValueError.
Proof. apply iterator_init_empty_dataset. reflexivity. Defined.

(** ** The kinect completion task in a module where [itertools] is bound *)

Section KinectTask.
Context {F : Type} `{FloatOps F}.
Variable g : @rng F.


End KinectTask.


(** ** The rasterizer on doubles *)




(** The radius of the draw [draw_33] in a grid of 16^3 voxels is the
    double [0x1.6fa6ea162d0fp+2]; its square is below 33 and rounds
    to 33. *)
Lemma radius_33_rounds :
  let r := sample_radius (constant_rng draw_33) centered_16 0 0 in
  unit_draw (rand_at (constant_rng draw_33) 0) = true /\
  exact r = PFloat (6467802548588784 # 1125899906842624) /\
  num_sq r = PFloat (float_of_Z 33) /\
  num_le (num_sq (exact r)) (PInt 33) = true /\
  num_le (PInt 33) (num_sq (exact r)) = false.
Proof. vm_compute. repeat split; reflexivity. Qed.


(** The sphere of the draw 0.6 at the centre (7, 7, 7) of a grid of 16^3
    voxels has 925 voxels on doubles, and 895 when the same draw is taken
    exactly: the double 0.6 is below 6/10, [5 * 0.6] rounds to 3, and the
    30 voxels at the squared distance 36 are then inside. *)
Lemma sphere_of_radius_6 :
  length (occupied_cells
            (grid_of (generate_solid_figures (constant_rng draw_0_6)
                        centered_16 [SPHERE_TYPE] 0))) = 925%nat /\
  length (occupied_cells
            (grid_of (generate_solid_figures
                        {| rand_at := fun k =>
                             float_value (rand_at (constant_rng draw_0_6) k);
                           randint_at := fun _ => 0 |}
                        centered_16 [SPHERE_TYPE] 0))) = 895%nat.
Proof. vm_compute. split; reflexivity. Qed.
